(** * midi-ndn: the session, flow-control and liveness core

    A shallow embedding of the two endpoints of midi-ndn:

    - [PlaybackModule] (the consumer): the table [m_lookup] of control
      blocks, the handshake/heartbeat handler [onInterest], the windowed
      puller [onData] / [requestNext] and the inactivity sweep
      [controlBlockMonitoring];
    - [Controller] (the producer): the two backlog queues, [addInput],
      [replyInterest], [onInterest], [onData] and the heartbeat probe
      [sendHeartbeat].

    Conventions.
    - A C++ [int] is a [Z]; every arithmetic operation of the source is
      written with its 32-bit two's complement wrap-around ([wrap]).  Signed
      overflow has no defined behaviour in C++: statements that depend on
      the value of a counter say that it stays in range.
    - The transport (ndn-cxx) and the MIDI device (RtMidi) are outside the
      repository: a handler returns the new state together with the list of
      calls it made on them ([Event]).  Writes to [std::cerr]/[std::cout] are
      not recorded.
    - A name is given by the components the handlers read from it. *)

From Stdlib Require Import ZArith Lia List String.
From Stdlib Require Import Strings.Byte.
From stdpp Require Import gmap strings list fin_maps.
From stdpp Require Import sorting.

Local Open Scope Z_scope.

(** ** Machine integers *)

Definition int_min : Z := - 2 ^ 31.
Definition int_max : Z := 2 ^ 31 - 1.

(** Reduction of a mathematical integer to the [int] it is stored as. *)
Definition wrap (z : Z) : Z := (z + 2 ^ 31) mod 2 ^ 32 - 2 ^ 31.

Definition int_add (a b : Z) : Z := wrap (a + b).
Definition int_sub (a b : Z) : Z := wrap (a - b).
(** Integer division of two non-negative [int]s (C++ truncation agrees with
    [Z.div] there). *)
Definition int_div (a b : Z) : Z := wrap (a / b).

(** [uint64_t -> int], as in [int seqNo = ...toSequenceNumber()]. *)
Definition int_of_uint64 (n : N) : Z := wrap (Z.of_N n).
(** [int -> uint64_t], as in [appendSequenceNumber(nextSeqNo)]. *)
Definition uint64_of_int (z : Z) : N := Z.to_N (z mod 2 ^ 64).

(** ** Names and packets *)

(** The last component of a name, [name.get(-1)]: a generic component, read
    with [toUri()], or a sequence number, read with [toSequenceNumber()]. *)
Inductive Component :=
| Generic (uri : string)
| SequenceNumber (n : N).

(** [c.toUri() == "heartbeat"]. *)
Definition isHeartbeat (c : Component) : bool :=
  match c with
  | Generic uri => String.eqb uri "heartbeat"
  | SequenceNumber _ => false
  end.

(** [c.toSequenceNumber()]; [None] when the component is not a sequence
    number (the library throws). *)
Definition toSequenceNumber (c : Component) : option N :=
  match c with
  | Generic _ => None
  | SequenceNumber n => Some n
  end.

(** A name [/topo-prefix/<user>/midi-ndn/<proj>/<last>]. *)
Record Name := mkName {
  name_user : string;   (* get(-4).toUri() *)
  name_proj : string;   (* get(-2).toUri() *)
  name_last : Component (* get(-1) *)
}.

Definition heartbeat : Component := Generic "heartbeat".

(** Calls on the external collaborators, in the order they are made. *)
Inductive Event :=
| ExpressInterest (name : Name)                 (* m_face.expressInterest *)
| PutData (name : Name) (content : list byte)   (* m_face.put *)
| SendMessage (msg : list byte).                (* midiout->sendMessage *)

(** What a handler does: it returns, with a new state and the calls it
    made; it leaves by an exception of the name accessors; it copies a
    content past the end of the buffer it is copied into; or it stores an
    element past the end of a vector.  After either of the last two the
    source has no defined behaviour. *)
Inductive Result (A : Type) :=
| Done (a : A) (out : list Event)
| Thrown
| Overrun
| OutOfBounds.
Arguments Done {A} a out.
Arguments Thrown {A}.
Arguments Overrun {A}.
Arguments OutOfBounds {A}.

Definition zero : byte := x00.

(** ** The consumer: PlaybackModule *)

Module PlaybackModule.

Definition PREWARM_AMOUNT : Z := 5.
Definition MAX_INACTIVE_TIME : Z := 5.

(** Capacity of [char buffer[30]] in [onData]. *)
Definition BUFFER_SIZE : Z := 30.

Record MIDIControlBlock := mkCB {
  minSeqNo : Z;
  maxSeqNo : Z;
  inactiveTime : Z
}.

Record State := mkState {
  m_projName : string;
  m_lookup : gmap string MIDIControlBlock;
  message : list byte     (* std::vector<unsigned char> message *)
}.

Definition set_lookup (st : State) (t : gmap string MIDIControlBlock) : State :=
  {| m_projName := m_projName st; m_lookup := t; message := message st |}.

Definition set_message (st : State) (m : list byte) : State :=
  {| m_projName := m_projName st; m_lookup := m_lookup st; message := m |}.

(** [requestNext(remoteName)]. *)
Definition requestNext (remoteName : string) (st : State) : State * list Event :=
  match m_lookup st !! remoteName with
  | None => (st, [])
  | Some cb =>
      let nextSeqNo := maxSeqNo cb in
      let nextName :=
        mkName remoteName (m_projName st) (SequenceNumber (uint64_of_int nextSeqNo)) in
      (set_lookup st
         (<[remoteName := mkCB (minSeqNo cb) (int_add (maxSeqNo cb) 1) (inactiveTime cb)]>
            (m_lookup st)),
       [ExpressInterest nextName])
  end.

(** [for (int i = 0; i < n; ++i) requestNext(remoteName);] with [n]
    iterations left. *)
Fixpoint requestLoop (n : nat) (remoteName : string) (st : State) : State * list Event :=
  match n with
  | O => (st, [])
  | S n' =>
      let '(st1, out1) := requestNext remoteName st in
      let '(st2, out2) := requestLoop n' remoteName st1 in
      (st2, out1 ++ out2)
  end.

Definition ACCEPTED : list byte := list_byte_of_string "ACCEPTED".

(** [onInterest(interest)].  The remote is filed under
    [interest.getName().get(-2).toUri()], the component before
    [heartbeat]. *)
Definition onInterest (name : Name) (st : State) : State * list Event :=
  if negb (isHeartbeat (name_last name)) then (st, [])
  else
    let remoteName := name_proj name in
    match m_lookup st !! remoteName with
    | Some cb =>
        (* heartbeat of a known remote *)
        (set_lookup st
           (<[remoteName := mkCB (minSeqNo cb) (maxSeqNo cb) 0]> (m_lookup st)),
         [PutData name ACCEPTED])
    | None =>
        let st1 := set_lookup st (<[remoteName := mkCB 0 0 0]> (m_lookup st)) in
        let '(st2, out) := requestLoop (Z.to_nat PREWARM_AMOUNT) remoteName st1 in
        (st2, PutData name ACCEPTED :: out)
    end.

(** [buffer[0] == 0 && buffer[1] == 0 && buffer[2] == 0]: the special message
    to shut down. *)
Definition isShutdown (buffer : list byte) : bool :=
  Byte.eqb (nth 0 buffer zero) zero && Byte.eqb (nth 1 buffer zero) zero
  && Byte.eqb (nth 2 buffer zero) zero.

(** The body of [for (int j = 0; j < dataSize/3; ++j)] in [onData], from
    unit [j] on, with [n] units left.  The boolean tells whether the handler
    returned from inside the loop (the table entry was erased).  A round
    stores [this->message[i]] for [i = 0, 1, 2] without a bounds check:
    [None] when the [message] vector has fewer than three elements and one
    of the stores is past its end. *)
Fixpoint playLoop (n : nat) (j : nat) (buffer : list byte) (remoteName : string)
    (st : State) : option (bool * State * list Event) :=
  match n with
  | O => Some (false, st, [])
  | S n' =>
      if (length (message st) <? 3)%nat then None
      else
        let b i := nth (i + j * 3) buffer zero in
        let msg :=
          <[2%nat := b 2%nat]> (<[1%nat := b 1%nat]> (<[0%nat := b 0%nat]> (message st))) in
        let st1 := set_message st msg in
        let sent := if (length msg =? 3)%nat then [SendMessage msg] else [] in
        if isShutdown buffer
        then Some (true, set_lookup st1 (delete remoteName (m_lookup st1)), sent)
        else
          match playLoop n' (S j) buffer remoteName st1 with
          | Some (r, st2, out) => Some (r, st2, sent ++ out)
          | None => None
          end
  end.

(** [onData(data)]: the name and the content of the Data packet.  The
    remote is [data.getName().get(-4).toUri()]. *)
Definition onData (name : Name) (content : list byte) (st : State) : Result State :=
  if isHeartbeat (name_last name) then Done st []
  else
    match toSequenceNumber (name_last name) with
    | None => Thrown
    | Some n =>
        let seqNo := int_of_uint64 n in
        let remoteName := name_user name in
        match m_lookup st !! remoteName with
        | None => Done st []
        | Some cb =>
            let dataSize := wrap (Z.of_nat (length content)) in
            (* memcpy(buffer, data.getContent().value(), dataSize) *)
            if (dataSize <? 0) || (BUFFER_SIZE <? dataSize) then Overrun
            else
              let buffer := take (Z.to_nat dataSize) content in
              if seqNo <? minSeqNo cb then Done st []
              else if maxSeqNo cb <? seqNo then Done st []
              else
                let diff := int_add (int_sub seqNo (minSeqNo cb)) 1 in
                let st1 :=
                  set_lookup st
                    (<[remoteName :=
                         mkCB (int_add (minSeqNo cb) diff) (maxSeqNo cb) (inactiveTime cb)]>
                       (m_lookup st)) in
                match playLoop (Z.to_nat (int_div dataSize 3)) 0 buffer remoteName st1 with
                | None => OutOfBounds
                | Some (returned, st2, out) =>
                    if returned then Done st2 out
                    else
                      let '(st3, out') := requestLoop (Z.to_nat diff) remoteName st2 in
                      Done st3 (out ++ out')
                end
        end
    end.

(** One round of [controlBlockMonitoring] (the body of its [while (true)],
    after the sleep). *)
Definition tickBlock (cb : MIDIControlBlock) : MIDIControlBlock :=
  mkCB (minSeqNo cb) (maxSeqNo cb) (int_add (inactiveTime cb) 1).

Definition expired (cb : MIDIControlBlock) : bool :=
  MAX_INACTIVE_TIME <? inactiveTime cb.

Definition controlBlockMonitoring (st : State) : State :=
  let table := tickBlock <$> m_lookup st in
  let rmList := (filter (fun kv => expired kv.2 = true) (map_to_list table)).*1 in
  set_lookup st (foldr delete table rmList).

(** *** Vocabulary of the statements *)

(** The Interest [requestNext] expresses for sequence number [seq]. *)
Definition request (r : string) (proj : string) (seq : Z) : Event :=
  ExpressInterest (mkName r proj (SequenceNumber (uint64_of_int seq))).

(** Requests for the [n] sequence numbers from [from] on. *)
Definition requests (r : string) (proj : string) (from : Z) (n : nat) : list Event :=
  (fun i : nat => request r proj (from + Z.of_nat i)) <$> seq 0 n.



(** The termination sentinel. *)
Definition sentinel : list byte := [zero; zero; zero].

(** The operations on the module: the two handlers the transport calls, a
    call of [requestNext] and one round of the monitoring thread. *)
Inductive Op :=
| OnInterest (name : Name)
| OnData (name : Name) (content : list byte)
| RequestNext (remoteName : string)
| MonitorTick.

Definition step (op : Op) (st : State) : Result State :=
  match op with
  | OnInterest name => let '(st', out) := onInterest name st in Done st' out
  | OnData name content => onData name content st
  | RequestNext remoteName => let '(st', out) := requestNext remoteName st in Done st' out
  | MonitorTick => Done (controlBlockMonitoring st) []
  end.

(** The state the constructor leaves: no control block. *)
Definition initial (projname : string) (msg : list byte) : State :=
  mkState projname ∅ msg.

(** [steps P st ops st']: the operations [ops], each of them returning and
    each of them started in a state that satisfies [P], take [st] to [st']. *)
Inductive steps (P : State -> Prop) : State -> list Op -> State -> Prop :=
| steps_nil st : steps P st [] st
| steps_cons st op st1 out ops st2 :
    P st -> step op st = Done st1 out -> steps P st1 ops st2 ->
    steps P st (op :: ops) st2.

(** No sequence number of the table is near the end of the [int] range: the
    next operation cannot overflow one. *)
Definition small (st : State) : Prop :=
  forall r cb, m_lookup st !! r = Some cb -> maxSeqNo cb < 2 ^ 30.

Definition any (st : State) : Prop := True.

(** [op] is no heartbeat request of the remote [r]. *)
Definition quiet (r : string) (op : Op) : Prop :=
  match op with
  | OnInterest name => isHeartbeat (name_last name) = true -> name_proj name <> r
  | _ => True
  end.

Definition isTick (op : Op) : bool :=
  match op with MonitorTick => true | _ => false end.

(** The number of monitoring rounds among [ops]. *)
Definition ticks (ops : list Op) : nat := length (List.filter isTick ops).

(** The inactivity counter of every control block is within its bounds. *)
Definition inactive_ok (st : State) : Prop :=
  forall r cb, m_lookup st !! r = Some cb -> 0 <= inactiveTime cb <= MAX_INACTIVE_TIME.

(** Every window of the table is well formed. *)
Definition windows_ok (st : State) : Prop :=
  forall r cb, m_lookup st !! r = Some cb -> 0 <= minSeqNo cb <= maxSeqNo cb.

(** A table with the one remote [peerA], a Data name of that remote and
    two MIDI messages, for the examples. *)
Definition session (cb : MIDIControlBlock) : State :=
  mkState "tmp-proj" {[ "peerA"%string := cb ]} [zero; zero; zero].

Definition response (seq : N) : Name :=
  mkName "peerA" "tmp-proj" (SequenceNumber seq).

Definition noteOn : list byte := [x90; x40; x5a].
Definition noteOff : list byte := [x90; x40; x00].

(** A handshake Interest that [onInterest] files under [peerA]. *)
Definition hello : Name := mkName "host" "peerA" heartbeat.

(** [op] is one of the callbacks: a handler of the transport or a round of
    the monitoring thread ([requestNext] is private and runs only inside the
    handlers). *)
Definition callback (op : Op) : Prop :=
  match op with
  | RequestNext _ => False
  | _ => True
  end.

(** Every window of the table is as wide as the prewarm made it. *)
Definition widths_ok (st : State) : Prop :=
  forall r cb, m_lookup st !! r = Some cb -> maxSeqNo cb - minSeqNo cb = PREWARM_AMOUNT.

(** [k] rounds of the monitoring thread in a row. *)
Definition monitorRounds (k : nat) (st : State) : State :=
  Nat.iter k controlBlockMonitoring st.

End PlaybackModule.

(** ** The producer: Controller *)

Module Controller.

Definition MAX_HEARTBEAT_PROBE : Z := 3.

(** Capacity of [MIDIMessage midiBuf[10]]: the most messages one Data packet
    carries. *)
Definition MAX_BATCH : nat := 10.

(** [struct MIDIMessage { char data[3]; }]. *)
Record MIDIMessage := mkMsg {
  data0 : byte;
  data1 : byte;
  data2 : byte
}.

Definition bytes (m : MIDIMessage) : list byte := [data0 m; data1 m; data2 m].

Record State := mkState {
  m_baseName : string * string;        (* /topo-prefix/<remote>/midi-ndn/<proj> *)
  m_connGood : bool;
  m_inputQueue : list MIDIMessage;     (* std::deque, front first *)
  m_interestQueue : list Name;         (* std::deque, front first *)
  midiBuf : list MIDIMessage;          (* MIDIMessage midiBuf[10] *)
  m_maxSeqNo : Z;
  m_hbCount : Z;
  heartbeatNonce : Z
}.

(** [addInput(MIDIMessage msg)]. *)
Definition addInput (msg : MIDIMessage) (st : State) : State :=
  {| m_baseName := m_baseName st; m_connGood := m_connGood st;
     m_inputQueue := m_inputQueue st ++ [msg];
     m_interestQueue := m_interestQueue st; midiBuf := midiBuf st;
     m_maxSeqNo := m_maxSeqNo st; m_hbCount := m_hbCount st;
     heartbeatNonce := heartbeatNonce st |}.

(** [addInput(std::string msg)]: the first three characters, padded with
    zeros. *)
Definition addInputString (msg : list byte) (st : State) : State :=
  addInput (mkMsg (nth 0 msg zero) (nth 1 msg zero) (nth 2 msg zero)) st.

(** The [while (!m_inputQueue.empty() && midiBufSize < 10)] loop of
    [replyInterest]: the remaining queue, the buffer and the number of
    messages in it. *)
Fixpoint fillBuf (queue : list MIDIMessage) (buf : list MIDIMessage) (midiBufSize : nat)
    : list MIDIMessage * list MIDIMessage * nat :=
  match queue with
  | [] => ([], buf, midiBufSize)
  | front :: rest =>
      if (midiBufSize <? MAX_BATCH)%nat
      then fillBuf rest (<[midiBufSize := front]> buf) (S midiBufSize)
      else (queue, buf, midiBufSize)
  end.

(** Both queues replaced, the rest of the state kept. *)
Definition set_queues (st : State) (inputs : list MIDIMessage) (interests : list Name)
    : State :=
  {| m_baseName := m_baseName st; m_connGood := m_connGood st;
     m_inputQueue := inputs; m_interestQueue := interests; midiBuf := midiBuf st;
     m_maxSeqNo := m_maxSeqNo st; m_hbCount := m_hbCount st;
     heartbeatNonce := heartbeatNonce st |}.

Definition set_midiBuf (st : State) (buf : list MIDIMessage) : State :=
  {| m_baseName := m_baseName st; m_connGood := m_connGood st;
     m_inputQueue := m_inputQueue st; m_interestQueue := m_interestQueue st;
     midiBuf := buf;
     m_maxSeqNo := m_maxSeqNo st; m_hbCount := m_hbCount st;
     heartbeatNonce := heartbeatNonce st |}.

(** [replyInterest()]. *)
Definition replyInterest (st : State) : State * list Event :=
  (* if not connected, queue will be cleared *)
  let st1 := if negb (m_connGood st) then set_queues st [] [] else st in
  match m_inputQueue st1, m_interestQueue st1 with
  | _ :: _, interestName :: interests =>
      let '(inputs, buf, midiBufSize) := fillBuf (m_inputQueue st1) (midiBuf st1) 0 in
      (* sendData(interestName, midiBuf, midiBufSize*3) *)
      (set_queues (set_midiBuf st1 buf) inputs interests,
       [PutData interestName (concat (bytes <$> take midiBufSize buf))])
  | _, _ => (st1, [])
  end.

(** [onInterest(interest)]; [None] when the last component is not a sequence
    number (the library throws). *)
Definition onInterest (name : Name) (st : State) : option State :=
  if negb (m_connGood st) then Some st
  else
    match toSequenceNumber (name_last name) with
    | None => None
    | Some n =>
        let seqNo := int_of_uint64 n in
        if m_maxSeqNo st <=? seqNo
        then Some {| m_baseName := m_baseName st; m_connGood := m_connGood st;
                     m_inputQueue := m_inputQueue st;
                     m_interestQueue := m_interestQueue st ++ [name];
                     midiBuf := midiBuf st;
                     m_maxSeqNo := int_add seqNo 1; m_hbCount := m_hbCount st;
                     heartbeatNonce := heartbeatNonce st |}
        else Some st
    end.

(** [onData(data)]. *)
Definition onData (name : Name) (st : State) : State :=
  if negb (isHeartbeat (name_last name)) then st
  else if m_connGood st
  then {| m_baseName := m_baseName st; m_connGood := true;
          m_inputQueue := m_inputQueue st; m_interestQueue := m_interestQueue st;
          midiBuf := midiBuf st; m_maxSeqNo := m_maxSeqNo st; m_hbCount := 0;
          heartbeatNonce := heartbeatNonce st |}
  else {| m_baseName := m_baseName st; m_connGood := true;
          m_inputQueue := []; m_interestQueue := [];
          midiBuf := midiBuf st; m_maxSeqNo := 0; m_hbCount := 0;
          heartbeatNonce := heartbeatNonce st |}.

(** One round of [sendHeartbeat] (the body of its [while (true)], before the
    sleep); the call of [requestNext()] is inlined. *)
Definition sendHeartbeat (st : State) : State * list Event :=
  let hbCount := int_add (m_hbCount st) 1 in
  let probe := ExpressInterest (mkName (m_baseName st).1 (m_baseName st).2 heartbeat) in
  let nonce := int_add (heartbeatNonce st) 1 in
  ({| m_baseName := m_baseName st;
      m_connGood := if (MAX_HEARTBEAT_PROBE <? hbCount) && m_connGood st
                    then false else m_connGood st;
      m_inputQueue := m_inputQueue st; m_interestQueue := m_interestQueue st;
      midiBuf := midiBuf st; m_maxSeqNo := m_maxSeqNo st; m_hbCount := hbCount;
      heartbeatNonce := nonce |},
   [probe]).

(** *** Vocabulary of the statements *)

Definition noMsg : MIDIMessage := mkMsg zero zero zero.
Definition noteOn : MIDIMessage := mkMsg x90 x40 x5a.

(** The Interest for sequence number [seq] the consumer sends. *)
Definition pull (seq : N) : Name := mkName "peerA" "tmp-proj" (SequenceNumber seq).

(** A controller with the given connection flag, heartbeat count and
    queues, for the examples. *)
Definition controller (connGood : bool) (hbCount : Z)
    (inputs : list MIDIMessage) (interests : list Name) : State :=
  mkState ("peerA"%string, "tmp-proj"%string) connGood inputs interests
    (replicate MAX_BATCH noMsg) 0 hbCount 0.

(** *** The threads around the controller *)

(** [n] rounds of [output_sender]: [while (true) controller.replyInterest();]. *)
Fixpoint output_sender (n : nat) (st : State) : State * list Event :=
  match n with
  | O => (st, [])
  | S n' =>
      let '(st1, out1) := replyInterest st in
      let '(st2, out2) := output_sender n' st1 in
      (st2, out1 ++ out2)
  end.

(** [std::string(const char* s)] on a pointer into an array: the characters
    before the first NUL; [None] when the array holds no NUL and the
    constructor reads past its end. *)
Fixpoint c_str (chars : list byte) : option (list byte) :=
  match chars with
  | [] => None
  | c :: rest =>
      if Byte.eqb c zero then Some []
      else match c_str rest with
           | Some s => Some (c :: s)
           | None => None
           end
  end.

(** One round of the loop of [midiLoopNoBLock] with the [message] the device
    returned.  The call [controller.addInput(messageThree)] on a
    [char messageThree[3]] converts the array to a [std::string] (a [char]
    array does not convert to a [MIDIMessage]). *)
Definition midiLoopNoBLock (message : list byte) (st : State) : option State :=
  let nBytes := length message in
  if (3 <=? nBytes)%nat then
    let messageThree := take 3 message in
    match c_str messageThree with
    | Some msg => Some (addInputString msg st)
    | None => None
    end
  else Some st.

(** *** Vocabulary of the further statements *)

(** The operations on the controller: the two handlers, the device thread
    enqueuing a message, one round of [output_sender] and one round of the
    heartbeat thread. *)
Inductive Op :=
| OnInterest (name : Name)
| OnData (name : Name)
| AddInput (msg : MIDIMessage)
| ReplyInterest
| SendHeartbeat.

Definition step (op : Op) (st : State) : option (State * list Event) :=
  match op with
  | OnInterest name =>
      match onInterest name st with
      | Some st' => Some (st', [])
      | None => None
      end
  | OnData name => Some (onData name st, [])
  | AddInput msg => Some (addInput msg st, [])
  | ReplyInterest => Some (replyInterest st)
  | SendHeartbeat => Some (sendHeartbeat st)
  end.

Fixpoint run (ops : list Op) (st : State) : option (State * list Event) :=
  match ops with
  | [] => Some (st, [])
  | op :: ops' =>
      match step op st with
      | Some (st1, out1) =>
          match run ops' st1 with
          | Some (st2, out2) => Some (st2, out1 ++ out2)
          | None => None
          end
      | None => None
      end
  end.

(** The sequence number an Interest carries, as [onInterest] reads it. *)
Definition seqNoOf (name : Name) : Z :=
  match name_last name with
  | SequenceNumber n => int_of_uint64 n
  | Generic _ => 0
  end.

(** The queued Interests are in strictly increasing order of sequence
    number and all below [m_maxSeqNo]. *)
Definition queue_ok (st : State) : Prop :=
  StronglySorted Z.lt (seqNoOf <$> m_interestQueue st) /\
  Forall (fun seq => seq < m_maxSeqNo st) (seqNoOf <$> m_interestQueue st).

(** The sequence number of an incoming Interest is not the last [int]. *)
Definition in_range (op : Op) : Prop :=
  match op with
  | OnInterest name => seqNoOf name < int_max
  | _ => True
  end.

(** The bytes of the Data packets among the calls, in order. *)
Definition contents (out : list Event) : list byte :=
  concat ((fun e => match e with PutData _ content => content | _ => [] end) <$> out).

(** [k] rounds of the heartbeat thread in a row. *)
Definition probes (k : nat) (st : State) : State :=
  Nat.iter k (fun s => (sendHeartbeat s).1) st.

(** [op] is no heartbeat Data: it cannot set the connection up. *)
Definition silent (op : Op) : Prop :=
  match op with
  | OnData name => isHeartbeat (name_last name) = false
  | _ => True
  end.

Definition isPutData (e : Event) : bool :=
  match e with PutData _ _ => true | _ => false end.

End Controller.

(** ** The first consumer: network/PlaybackModule.cpp

    The stop-and-wait version of the consumer: one counter per remote, one
    Interest outstanding.  Its names follow the note at the head of the
    file: a received Interest is
    [/topo-prefix/<user>/midi-ndn/<proj>] (user at [-3]) and a received Data
    or sent Interest is that name with a sequence number appended (user at
    [-4]). *)

Module NetworkPlayback.

(** A name [/topo-prefix/<user>/midi-ndn/<proj>]. *)
Record Prefix := mkPrefix {
  prefix_user : string;   (* get(-3).toUri() *)
  prefix_proj : string
}.

(** Calls on the transport. *)
Inductive Call :=
| Express (name : Name)                       (* m_face.expressInterest *)
| Put (name : Prefix) (content : list byte).  (* m_face.put *)

(** What [onData] does: it returns; it leaves by the exception of
    [toSequenceNumber]; or it reads past the end of the content. *)
Inductive Outcome :=
| Returned (st : gmap string Z) (out : list Call)
| Throws
| Overread.

Section Consumer.

(** [m_baseName], fixed by the constructor. *)
Variable m_baseName : Prefix.

(** The state is [m_lookup], the next sequence number of each remote. *)
Implicit Types (m_lookup : gmap string Z).

(** [requestNext(remoteName)]. *)
Definition requestNext (remoteName : string) m_lookup : list Call :=
  match m_lookup !! remoteName with
  | None => []
  | Some nextSeqNo =>
      [Express (mkName (prefix_user m_baseName) (prefix_proj m_baseName)
                  (SequenceNumber (uint64_of_int nextSeqNo)))]
  end.

(** [onInterest(interest)]. *)
Definition onInterest (name : Prefix) m_lookup : gmap string Z * list Call :=
  let remoteName := prefix_user name in
  match m_lookup !! remoteName with
  | Some _ => (m_lookup, [])
  | None =>
      let m_lookup1 := <[remoteName := 0]> m_lookup in
      (m_lookup1,
       Put name (list_byte_of_string "ACCEPTED") :: requestNext remoteName m_lookup1)
  end.

(** [onData(data)]. *)
Definition onData (name : Name) (content : list byte) m_lookup : Outcome :=
  match toSequenceNumber (name_last name) with
  | None => Throws
  | Some _ =>
      let remoteName := name_user name in
      match m_lookup !! remoteName with
      | None => Returned m_lookup []
      | Some seq =>
          (* memcpy(buffer, data.getContent().value(), 3) *)
          if (length content <? 3)%nat then Overread
          else
            let buffer := take 3 content in
            let m_lookup1 := <[remoteName := int_add seq 1]> m_lookup in
            if Byte.eqb (nth 0 buffer zero) zero && Byte.eqb (nth 1 buffer zero) zero
               && Byte.eqb (nth 2 buffer zero) zero
            then Returned (delete remoteName m_lookup1) []
            else Returned m_lookup1 (requestNext remoteName m_lookup1)
      end
  end.

(** [onTimeout(interest)]. *)
Definition onTimeout (name : Name) m_lookup : gmap string Z * list Call :=
  (m_lookup, [Express name]).

End Consumer.

End NetworkPlayback.

(** * Properties *)

(** ** Machine integers *)

Lemma wrap_id (z : Z) : int_min <= z <= int_max -> wrap z = z.
Proof.
  unfold wrap, int_min, int_max. intros Hz.
  rewrite Z.mod_small; lia.
Qed.

Lemma wrap_range (z : Z) : int_min <= wrap z <= int_max.
Proof.
  unfold wrap, int_min, int_max.
  pose proof (Z.mod_pos_bound (z + 2 ^ 31) (2 ^ 32)). lia.
Qed.

Lemma int_add_id (a b : Z) : int_min <= a + b <= int_max -> int_add a b = a + b.
Proof. apply wrap_id. Qed.

Lemma int_sub_id (a b : Z) : int_min <= a - b <= int_max -> int_sub a b = a - b.
Proof. apply wrap_id. Qed.

Lemma int_bounds : int_min = -2147483648 /\ int_max = 2147483647.
Proof. split; reflexivity. Qed.

(** The number of advanced sequence numbers, [seqNo - cb.minSeqNo + 1], when
    nothing overflows. *)
Lemma diff_id (seq lo : Z) :
  0 <= lo -> lo <= seq -> seq < int_max ->
  int_add (int_sub seq lo) 1 = seq - lo + 1.
Proof.
  intros H0 Hlo Hhi. destruct int_bounds as [Hmin Hmax].
  rewrite int_sub_id by lia. apply int_add_id. lia.
Qed.

Module PlaybackFacts.
Import PlaybackModule.

Implicit Types (st : State) (cb : MIDIControlBlock) (r remoteName : string).
Implicit Types (content buffer : list byte) (name : Name).

Lemma set_lookup_id st : set_lookup st (m_lookup st) = st.
Proof. by destruct st. Qed.

(** *** requestNext *)

Lemma requests_S r proj from n :
  requests r proj from (S n) = request r proj from :: requests r proj (from + 1) n.
Proof.
  unfold requests. cbn [seq fmap list_fmap]. rewrite Z.add_0_r. f_equal.
  rewrite <- seq_shift, <- list_fmap_compose. apply list_fmap_ext.
  intros _ i _. cbn. f_equal. lia.
Qed.

Lemma length_requests r proj from n : length (requests r proj from n) = n.
Proof. unfold requests. by rewrite length_fmap, length_seq. Qed.

Lemma requestNext_unknown r st :
  m_lookup st !! r = None -> requestNext r st = (st, []).
Proof. unfold requestNext. by intros ->. Qed.

Lemma requestNext_known r st cb :
  m_lookup st !! r = Some cb ->
  requestNext r st =
    (set_lookup st
       (<[r := mkCB (minSeqNo cb) (int_add (maxSeqNo cb) 1) (inactiveTime cb)]> (m_lookup st)),
     [request r (m_projName st) (maxSeqNo cb)]).
Proof. unfold requestNext. by intros ->. Qed.

Lemma requestLoop_unknown n r st :
  m_lookup st !! r = None -> requestLoop n r st = (st, []).
Proof.
  intros Hr. induction n as [|n IH]; [done|].
  cbn. by rewrite requestNext_unknown, IH.
Qed.

(** [n] calls of [requestNext] on a known remote, when [maxSeqNo] stays an
    [int]: the requests are for [maxSeqNo], ..., [maxSeqNo + n - 1] and
    [maxSeqNo] grows by [n]. *)
Lemma requestLoop_known n : forall r st cb,
  m_lookup st !! r = Some cb ->
  int_min <= maxSeqNo cb -> maxSeqNo cb + Z.of_nat n <= int_max ->
  requestLoop n r st =
    (set_lookup st
       (<[r := mkCB (minSeqNo cb) (maxSeqNo cb + Z.of_nat n) (inactiveTime cb)]> (m_lookup st)),
     requests r (m_projName st) (maxSeqNo cb) n).
Proof.
  induction n as [|n IH]; intros r st cb Hr Hlo Hhi.
  - cbn. rewrite Z.add_0_r. f_equal.
    rewrite insert_id; [apply eq_sym, set_lookup_id|by destruct cb].
  - cbn [requestLoop]. rewrite (requestNext_known _ _ _ Hr).
    rewrite int_add_id by lia.
    erewrite IH; cycle 1.
    + cbn. apply lookup_insert_eq.
    + cbn. lia.
    + cbn. lia.
    + rewrite requests_S. unfold set_lookup.
      cbn [m_lookup m_projName message minSeqNo maxSeqNo inactiveTime app].
      rewrite insert_insert_eq. do 4 f_equal. lia.
Qed.

(** Whatever the counters, [requestLoop] touches only [maxSeqNo] of the
    remote it is called for. *)
Lemma requestLoop_lookup n : forall r st st' out,
  requestLoop n r st = (st', out) ->
  (forall r', r' <> r -> m_lookup st' !! r' = m_lookup st !! r') /\
  (m_lookup st !! r = None -> m_lookup st' !! r = None) /\
  (forall cb, m_lookup st !! r = Some cb ->
     exists hi, m_lookup st' !! r = Some (mkCB (minSeqNo cb) hi (inactiveTime cb))) /\
  message st' = message st /\ m_projName st' = m_projName st.
Proof.
  induction n as [|n IH]; intros r st st' out Hrun.
  - cbn in Hrun. injection Hrun as <- <-. repeat split; try done.
    intros cb Hcb. exists (maxSeqNo cb). by destruct cb.
  - cbn in Hrun.
    destruct (requestNext r st) as [st1 out1] eqn:H1.
    destruct (requestLoop n r st1) as [st2 out2] eqn:H2.
    injection Hrun as <- <-.
    destruct (IH _ _ _ _ H2) as (Ho & Hn & Hs & Hm & Hp).
    destruct (m_lookup st !! r) as [cb|] eqn:Hr.
    + rewrite (requestNext_known _ _ _ Hr) in H1. injection H1 as <- <-.
      cbn in *. repeat split; try done.
      * intros r' Hne. rewrite Ho by done. by rewrite lookup_insert_ne.
      * intros cb' [= <-].
        destruct (Hs _ (lookup_insert_eq _ _ _)) as [hi Hhi]. by exists hi.
    + rewrite (requestNext_unknown _ _ Hr) in H1. injection H1 as <- <-.
      repeat split; try done. by intros; apply Hn.
Qed.

(** *** The playback loop of onData *)

Lemma byte_eqb_eq (a b : byte) : Byte.eqb a b = true <-> a = b.
Proof.
  split; [apply Byte.byte_dec_bl | apply Byte.byte_dec_lb].
Qed.

Lemma isShutdown_take buffer :
  (3 <= length buffer)%nat -> (isShutdown buffer = true <-> take 3 buffer = sentinel).
Proof.
  destruct buffer as [|a [|b [|c rest]]]; cbn; try lia. intros _.
  unfold isShutdown, sentinel. cbn.
  rewrite !andb_true_iff, !byte_eqb_eq. split.
  - by intros [[-> ->] ->].
  - by intros [= -> -> ->].
Qed.

Lemma write_message (m : list byte) (a b c : byte) :
  length m = 3%nat -> <[2%nat := c]> (<[1%nat := b]> (<[0%nat := a]> m)) = [a; b; c].
Proof. by destruct m as [|x [|y [|z [|]]]]. Qed.

Lemma length_write_message (m : list byte) (a b c : byte) :
  length (<[2%nat := c]> (<[1%nat := b]> (<[0%nat := a]> m))) = length m.
Proof. by rewrite !length_insert. Qed.

(** Without the shutdown message in front the loop runs to its end and
    leaves the table alone. *)
Lemma playLoop_table n : forall j buffer r st,
  isShutdown buffer = false -> (3 <= length (message st))%nat ->
  exists st' out,
    playLoop n j buffer r st = Some (false, st', out) /\
    m_lookup st' = m_lookup st /\ m_projName st' = m_projName st /\
    forall name, ExpressInterest name ∉ out.
Proof.
  induction n as [|n IH]; intros j buffer r st Hs Hm.
  - exists st, []. repeat split; try done. intros name H. by apply elem_of_nil in H.
  - cbn [playLoop]. rewrite Hs.
    destruct (Nat.ltb_spec (length (message st)) 3) as [Hlt|_]; [lia|].
    match goal with |- context [playLoop n (S j) buffer r ?s] =>
      destruct (IH (S j) buffer r s Hs) as (st' & out & -> & Ht & Hp & Hout);
        [cbn [message set_message]; by rewrite length_write_message|] end.
    eexists _, _. repeat split; try done.
    intros name [H|H]%elem_of_app; [|by eapply Hout].
    destruct (_ =? _)%nat; [|by apply elem_of_nil in H].
    by apply list_elem_of_singleton in H.
Qed.



(** The shutdown message in front: the first round sends it, erases the
    entry and returns. *)
Lemma playLoop_shutdown n j buffer r st :
  isShutdown buffer = true -> (3 <= length (message st))%nat ->
  exists st' out,
    playLoop (S n) j buffer r st = Some (true, st', out) /\
    m_lookup st' = delete r (m_lookup st) /\
    forall name, ExpressInterest name ∉ out.
Proof.
  intros Hs Hm. cbn [playLoop]. rewrite Hs.
  destruct (Nat.ltb_spec (length (message st)) 3) as [Hlt|_]; [lia|].
  eexists _, _. repeat split.
  intros name H. destruct (_ =? _)%nat; [|by apply elem_of_nil in H].
  by apply list_elem_of_singleton in H.
Qed.




(** A content whose first unit is not the sentinel, cut at its length. *)
Lemma playLoop_nonsentinel content r st :
  take 3 content <> sentinel ->
  ((3 <= length content)%nat -> (3 <= length (message st))%nat) ->
  exists st' sends,
    playLoop (length content / 3) 0 content r st = Some (false, st', sends) /\
    m_lookup st' = m_lookup st /\ m_projName st' = m_projName st /\
    forall name, ExpressInterest name ∉ sends.
Proof.
  intros Hns Hm. destruct (le_lt_dec 3 (length content)) as [Hlen|Hlen].
  - apply playLoop_table; [|by apply Hm]. destruct (isShutdown content) eqn:E; [|done].
    by apply isShutdown_take in E.
  - rewrite Nat.div_small by lia. exists st, []. repeat split.
    intros name H. by apply elem_of_nil in H.
Qed.


(** *** onData *)

(** The size of a content that fits the buffer, as the handler computes it. *)
Lemma dataSize_fits content :
  (length content <= 30)%nat ->
  let dataSize := wrap (Z.of_nat (length content)) in
  (dataSize <? 0) || (BUFFER_SIZE <? dataSize) = false /\
  take (Z.to_nat dataSize) content = content /\
  Z.to_nat (int_div dataSize 3) = (length content / 3)%nat.
Proof.
  intros Hlen dataSize. destruct int_bounds as [Hmin Hmax].
  assert (Hd : dataSize = Z.of_nat (length content)).
  { apply wrap_id. lia. }
  rewrite Hd. split; [|split].
  - apply orb_false_iff. unfold BUFFER_SIZE. split; apply Z.ltb_ge; lia.
  - apply take_ge. lia.
  - unfold int_div. rewrite wrap_id.
    + change 3 with (Z.of_nat 3). by rewrite <- Nat2Z.inj_div, Nat2Z.id.
    + pose proof (Z.div_pos (Z.of_nat (length content)) 3).
      pose proof (Z.div_le_upper_bound (Z.of_nat (length content)) 3 10). lia.
Qed.

(** The handler up to its two sequence-number checks. *)
Lemma onData_checks name content st n cb :
  name_last name = SequenceNumber n ->
  m_lookup st !! name_user name = Some cb ->
  (length content <= 30)%nat ->
  onData name content st =
    let seqNo := int_of_uint64 n in
    let r := name_user name in
    if seqNo <? minSeqNo cb then Done st []
    else if maxSeqNo cb <? seqNo then Done st []
    else
      let diff := int_add (int_sub seqNo (minSeqNo cb)) 1 in
      let st1 :=
        set_lookup st
          (<[r := mkCB (int_add (minSeqNo cb) diff) (maxSeqNo cb) (inactiveTime cb)]>
             (m_lookup st)) in
      match playLoop (length content / 3) 0 content r st1 with
      | None => OutOfBounds
      | Some (returned, st2, out) =>
          if returned then Done st2 out
          else
            let '(st3, out') := requestLoop (Z.to_nat diff) r st2 in
            Done st3 (out ++ out')
      end.
Proof.
  intros Hlast Hcb Hlen. unfold onData.
  destruct (dataSize_fits content Hlen) as (Hfit & Htake & Hunits).
  rewrite Hlast. cbn [isHeartbeat toSequenceNumber].
  by rewrite Hcb, Hfit, Htake, Hunits.
Qed.

(** A sequence number outside [minSeqNo .. maxSeqNo] is dropped. *)
Lemma onData_dropped name content st n cb :
  name_last name = SequenceNumber n ->
  m_lookup st !! name_user name = Some cb ->
  (length content <= 30)%nat ->
  int_of_uint64 n < minSeqNo cb \/ maxSeqNo cb < int_of_uint64 n ->
  onData name content st = Done st [].
Proof.
  intros Hlast Hcb Hlen Hout.
  rewrite (onData_checks _ _ _ _ _ Hlast Hcb Hlen). cbn zeta.
  destruct (Z.ltb_spec (int_of_uint64 n) (minSeqNo cb)); [done|].
  destruct (Z.ltb_spec (maxSeqNo cb) (int_of_uint64 n)); [done|lia].
Qed.

(** An accepted response that does not start with the sentinel, when no
    counter overflows and the [message] vector has room for the units
    played. *)
Lemma onData_accepted name content st n cb :
  name_last name = SequenceNumber n ->
  m_lookup st !! name_user name = Some cb ->
  (length content <= 30)%nat ->
  take 3 content <> sentinel ->
  ((3 <= length content)%nat -> (3 <= length (message st))%nat) ->
  let seqNo := int_of_uint64 n in
  let r := name_user name in
  let diff := seqNo - minSeqNo cb + 1 in
  0 <= minSeqNo cb -> minSeqNo cb <= seqNo <= maxSeqNo cb ->
  maxSeqNo cb + diff <= int_max ->
  exists st2 sends,
    playLoop (length content / 3) 0 content r
      (set_lookup st
         (<[r := mkCB (seqNo + 1) (maxSeqNo cb) (inactiveTime cb)]> (m_lookup st)))
      = Some (false, st2, sends) /\
    (forall name', ExpressInterest name' ∉ sends) /\
    onData name content st =
      Done (set_lookup st2
              (<[r := mkCB (seqNo + 1) (maxSeqNo cb + diff) (inactiveTime cb)]> (m_lookup st)))
           (sends ++ requests r (m_projName st) (maxSeqNo cb) (Z.to_nat diff)).
Proof.
  intros Hlast Hcb Hlen Hns Hroom seqNo r diff Hmin Hwin Hmax.
  destruct int_bounds as [Hlo Hhi].
  rewrite (onData_checks _ _ _ _ _ Hlast Hcb Hlen). cbn zeta. fold seqNo r.
  destruct (Z.ltb_spec seqNo (minSeqNo cb)); [lia|].
  destruct (Z.ltb_spec (maxSeqNo cb) seqNo); [lia|].
  rewrite diff_id by (subst diff; lia). fold diff.
  rewrite int_add_id by (subst diff; lia).
  replace (minSeqNo cb + diff) with (seqNo + 1) by (subst diff; lia).
  match goal with |- context [playLoop _ _ _ _ ?s] =>
    destruct (playLoop_nonsentinel content r s Hns Hroom)
      as (st2 & sends & Hplay & Ht & Hp & Hs) end.
  exists st2, sends. rewrite Hplay. split; [done|]. split; [done|].
  cbn [m_lookup set_lookup m_projName] in Ht, Hp.
  erewrite (requestLoop_known _ r st2); cycle 1.
  - rewrite Ht. apply lookup_insert_eq.
  - cbn. lia.
  - cbn. subst diff. lia.
  - cbn [minSeqNo maxSeqNo inactiveTime]. rewrite Ht, Hp, insert_insert_eq.
    rewrite Z2Nat.id by (subst diff; lia). done.
Qed.

(** Whatever the content, the loop either erases the entry of the remote and
    returns, or leaves the table alone. *)
Lemma playLoop_lookup n : forall j buffer r st returned st' out,
  playLoop n j buffer r st = Some (returned, st', out) ->
  m_projName st' = m_projName st /\
  m_lookup st' = if returned then delete r (m_lookup st) else m_lookup st.
Proof.
  induction n as [|n IH]; intros j buffer r st returned st' out Hrun.
  - cbn in Hrun. by injection Hrun as <- <- <-.
  - cbn [playLoop] in Hrun. destruct (_ <? _)%nat; [done|].
    destruct (isShutdown buffer).
    + by injection Hrun as <- <- <-.
    + match type of Hrun with context [playLoop n (S j) buffer r ?s] =>
        destruct (playLoop n (S j) buffer r s) as [[[ret2 st2] out2]|] eqn:H2 end; [|done].
      injection Hrun as <- <- <-. by apply IH in H2.
Qed.

(** What [onData] can do to the table, whatever the counters: entries of
    other remotes stay, no entry appears, and the entry of the remote is
    erased or keeps its [inactiveTime]. *)
Lemma onData_table name content st st' out :
  onData name content st = Done st' out ->
  m_projName st' = m_projName st /\
  forall r,
    (r <> name_user name -> m_lookup st' !! r = m_lookup st !! r) /\
    (m_lookup st !! r = None -> m_lookup st' !! r = None) /\
    (forall cb, m_lookup st !! r = Some cb ->
       m_lookup st' !! r = None \/
       exists lo hi, m_lookup st' !! r = Some (mkCB lo hi (inactiveTime cb))).
Proof.
  assert (Hsame : forall s : State, m_projName s = m_projName s /\
    forall r, (r <> name_user name -> m_lookup s !! r = m_lookup s !! r) /\
      (m_lookup s !! r = None -> m_lookup s !! r = None) /\
      (forall cb, m_lookup s !! r = Some cb ->
         m_lookup s !! r = None \/
         exists lo hi, m_lookup s !! r = Some (mkCB lo hi (inactiveTime cb)))).
  { intros s. split; [done|]. intros r. repeat split; try done.
    intros cb ->. right. exists (minSeqNo cb), (maxSeqNo cb). by destruct cb. }
  unfold onData. destruct (isHeartbeat _); [by intros [= <- <-]|].
  destruct (toSequenceNumber _) as [n|]; [|done].
  destruct (m_lookup st !! name_user name) as [cb0|] eqn:Hcb; [|by intros [= <- <-]].
  destruct (_ || _); [done|].
  destruct (_ <? _); [by intros [= <- <-]|].
  destruct (_ <? _); [by intros [= <- <-]|].
  match goal with |- context [playLoop ?k 0 ?b ?r ?s] =>
    destruct (playLoop k 0 b r s) as [[[returned st2] sends]|] eqn:Hplay end; [|done].
  apply playLoop_lookup in Hplay as [Hp2 Ht2]. cbn [m_projName m_lookup set_lookup] in Hp2, Ht2.
  destruct returned.
  - intros [= <- <-]. split; [done|]. intros r. rewrite Ht2.
    destruct (decide (r = name_user name)) as [->|Hne].
    + rewrite delete_insert_eq, lookup_delete_eq. repeat split; try done. by left.
    + rewrite lookup_delete_ne, lookup_insert_ne by done. by apply Hsame.
  - match goal with |- context [requestLoop ?k ?r ?s] =>
      destruct (requestLoop k r s) as [st3 reqs] eqn:Hreq end.
    intros [= <- <-].
    apply requestLoop_lookup in Hreq as (Ho & Hn & Hs & _ & Hp3).
    split; [congruence|]. intros r.
    destruct (decide (r = name_user name)) as [->|Hne].
    + repeat split; try done; [congruence|]. intros cb Hcb'. right.
      assert (cb = cb0) as -> by congruence.
      rewrite Ht2 in Hs. destruct (Hs _ (lookup_insert_eq _ _ _)) as [hi Hhi].
      eexists _, hi. exact Hhi.
    + rewrite Ho, Ht2, lookup_insert_ne by done. by apply Hsame.
Qed.

(** *** onInterest *)

Lemma onInterest_heartbeat name st cb :
  isHeartbeat (name_last name) = true ->
  m_lookup st !! name_proj name = Some cb ->
  onInterest name st =
    (set_lookup st
       (<[name_proj name := mkCB (minSeqNo cb) (maxSeqNo cb) 0]> (m_lookup st)),
     [PutData name ACCEPTED]).
Proof. unfold onInterest. by intros -> ->. Qed.

(** A handshake of an unknown remote: the entry is created and the channel
    prewarmed with [PREWARM_AMOUNT] requests. *)
Lemma onInterest_accept name st :
  isHeartbeat (name_last name) = true ->
  m_lookup st !! name_proj name = None ->
  onInterest name st =
    (set_lookup st
       (<[name_proj name := mkCB 0 PREWARM_AMOUNT 0]> (m_lookup st)),
     PutData name ACCEPTED
       :: requests (name_proj name) (m_projName st) 0 (Z.to_nat PREWARM_AMOUNT)).
Proof.
  unfold onInterest. intros -> ->. cbn [negb].
  erewrite requestLoop_known; cycle 1.
  - cbn. apply lookup_insert_eq.
  - by cbn.
  - by cbn.
  - cbn [minSeqNo maxSeqNo inactiveTime m_lookup m_projName set_lookup].
    by rewrite insert_insert_eq.
Qed.

(** *** controlBlockMonitoring *)

Lemma controlBlockMonitoring_lookup st r :
  m_lookup (controlBlockMonitoring st) !! r =
    match m_lookup st !! r with
    | Some cb => if expired (tickBlock cb) then None else Some (tickBlock cb)
    | None => None
    end.
Proof.
  unfold controlBlockMonitoring. cbn [m_lookup set_lookup].
  set (table := tickBlock <$> m_lookup st).
  set (rmList := (filter _ (map_to_list table)).*1).
  assert (Hrm : forall k, k ∈ rmList <-> exists cb, table !! k = Some cb /\ expired cb = true).
  { intros k. unfold rmList. rewrite list_elem_of_fmap. split.
    - intros [[k' cb] [-> [Hexp Hin]%list_elem_of_filter]].
      apply elem_of_map_to_list in Hin. by exists cb.
    - intros [cb [Hcb Hexp]]. exists (k, cb). split; [done|].
      apply list_elem_of_filter. split; [done|]. by apply elem_of_map_to_list. }
  assert (Ht : table !! r = tickBlock <$> m_lookup st !! r) by apply lookup_fmap.
  destruct (m_lookup st !! r) as [cb|]; cbn in Ht.
  - destruct (expired (tickBlock cb)) eqn:Hexp.
    + apply lookup_foldr_delete, Hrm. by exists (tickBlock cb).
    + rewrite lookup_foldr_delete_not_elem_of; [done|].
      intros [cb' [Hcb' Hexp']]%Hrm. congruence.
  - rewrite lookup_foldr_delete_not_elem_of; [done|].
    intros [cb' [Hcb' _]]%Hrm. congruence.
Qed.

(** *** The window of a session *)




(** C4: an accepted response inside the window whose content is the
    sentinel [{0,0,0}] erases the entry of the remote and expresses no
    Interest.  (The [message] vector has room for the three bytes of a
    unit.) *)
Theorem onData_sentinel_erases name st n cb :
  name_last name = SequenceNumber n ->
  m_lookup st !! name_user name = Some cb ->
  (3 <= length (message st))%nat ->
  minSeqNo cb <= int_of_uint64 n < maxSeqNo cb ->
  exists st' out,
    onData name sentinel st = Done st' out /\
    m_lookup st' = delete (name_user name) (m_lookup st) /\
    m_lookup st' !! name_user name = None /\
    forall name', ExpressInterest name' ∉ out.
Proof.
  intros Hlast Hcb Hmsg Hwin.
  rewrite (onData_checks _ _ _ _ _ Hlast Hcb) by (cbn; lia). cbn zeta.
  destruct (Z.ltb_spec (int_of_uint64 n) (minSeqNo cb)); [lia|].
  destruct (Z.ltb_spec (maxSeqNo cb) (int_of_uint64 n)); [lia|].
  change (length sentinel / 3)%nat with 1%nat.
  match goal with |- context [playLoop 1 0 sentinel ?r ?s] =>
    destruct (playLoop_shutdown 0 0 sentinel r s eq_refl Hmsg)
      as (st' & out & -> & Ht & Hout) end.
  exists st', out. cbn [m_lookup set_lookup] in Ht.
  rewrite delete_insert_eq in Ht. repeat split; try done.
  rewrite Ht. apply lookup_delete_eq.
Qed.

Lemma onData_sentinel_erases_witness :
  exists st' out,
    onData (response 0) sentinel (session (mkCB 0 5 0)) = Done st' out /\
    m_lookup st' = delete "peerA"%string (m_lookup (session (mkCB 0 5 0))) /\
    m_lookup st' !! "peerA"%string = None /\
    forall name', ExpressInterest name' ∉ out.
Proof.
  apply (onData_sentinel_erases (response 0) (session (mkCB 0 5 0)) 0 (mkCB 0 5 0)).
  - reflexivity.
  - reflexivity.
  - cbn. lia.
  - vm_compute. split; congruence.
Defined.

(** C10: only the first three bytes are tested for the sentinel.  When the
    first unit of an accepted response is not all-zero, three zero bytes
    later in the same content, at a unit boundary or not, do not erase the
    entry: the window advances and [advance >= 1] Interests are expressed.
    (The content fits the buffer, the [message] vector has room for the
    three bytes of a unit and no counter overflows.) *)
Theorem onData_later_sentinel_ignored name st n cb (first mid post : list byte) :
  let content := first ++ mid ++ sentinel ++ post in
  let seqNo := int_of_uint64 n in
  let r := name_user name in
  let advance := seqNo - minSeqNo cb + 1 in
  name_last name = SequenceNumber n ->
  m_lookup st !! r = Some cb ->
  length first = 3%nat -> first <> sentinel ->
  (length content <= 30)%nat ->
  (3 <= length (message st))%nat ->
  0 <= minSeqNo cb -> minSeqNo cb <= seqNo <= maxSeqNo cb ->
  maxSeqNo cb + advance <= int_max ->
  exists st' sends,
    onData name content st =
      Done st' (sends ++ requests r (m_projName st) (maxSeqNo cb) (Z.to_nat advance)) /\
    m_lookup st' !! r =
      Some (mkCB (minSeqNo cb + advance) (maxSeqNo cb + advance) (inactiveTime cb)) /\
    (forall name', ExpressInterest name' ∉ sends) /\
    (1 <= length (requests r (m_projName st) (maxSeqNo cb) (Z.to_nat advance)))%nat.
Proof.
  intros content seqNo r advance Hlast Hcb Hfirst Hns Hlen Hmsg Hmin Hwin Hmax.
  assert (Htake : take 3 content <> sentinel).
  { subst content. rewrite take_app_length'; done. }
  destruct (onData_accepted name content st n cb Hlast Hcb Hlen Htake (fun _ => Hmsg)
              Hmin Hwin Hmax)
    as (st2 & sends & _ & Hsends & Hdone).
  eexists _, sends. split; [exact Hdone|]. cbn [m_lookup set_lookup].
  split; [|split].
  - rewrite lookup_insert_eq. do 2 f_equal. subst advance seqNo. lia.
  - done.
  - rewrite length_requests. subst advance seqNo. lia.
Qed.

Lemma onData_later_sentinel_ignored_witness :
  exists st' sends,
    onData (response 0) (noteOn ++ [] ++ sentinel ++ noteOff) (session (mkCB 0 5 0)) =
      Done st' (sends ++ requests "peerA" "tmp-proj" 5 1) /\
    m_lookup st' !! "peerA"%string = Some (mkCB 1 6 0) /\
    (forall name', ExpressInterest name' ∉ sends) /\
    (1 <= length (requests "peerA" "tmp-proj" 5 1))%nat.
Proof.
  apply (onData_later_sentinel_ignored (response 0) (session (mkCB 0 5 0)) 0 (mkCB 0 5 0)
           noteOn [] noteOff).
  - reflexivity.
  - reflexivity.
  - reflexivity.
  - discriminate.
  - cbn. lia.
  - cbn. lia.
  - cbn. lia.
  - vm_compute. split; congruence.
  - vm_compute. congruence.
Defined.

(** *** The operations and the table *)

Lemma onInterest_other name st r :
  (isHeartbeat (name_last name) = true -> name_proj name <> r) ->
  m_lookup (onInterest name st).1 !! r = m_lookup st !! r.
Proof.
  intros Hq. destruct (isHeartbeat (name_last name)) eqn:Hhb.
  - specialize (Hq eq_refl).
    destruct (m_lookup st !! name_proj name) as [cb|] eqn:Hcb.
    + rewrite (onInterest_heartbeat _ _ _ Hhb Hcb). cbn. by rewrite lookup_insert_ne.
    + rewrite (onInterest_accept _ _ Hhb Hcb). cbn. by rewrite lookup_insert_ne.
  - unfold onInterest. by rewrite Hhb.
Qed.

Lemma onInterest_self name st :
  isHeartbeat (name_last name) = true ->
  m_lookup (onInterest name st).1 !! name_proj name =
    Some match m_lookup st !! name_proj name with
         | Some cb => mkCB (minSeqNo cb) (maxSeqNo cb) 0
         | None => mkCB 0 PREWARM_AMOUNT 0
         end.
Proof.
  intros Hhb. destruct (m_lookup st !! name_proj name) as [cb|] eqn:Hcb.
  - rewrite (onInterest_heartbeat _ _ _ Hhb Hcb). cbn. by rewrite lookup_insert_eq.
  - rewrite (onInterest_accept _ _ Hhb Hcb). cbn. by rewrite lookup_insert_eq.
Qed.

Lemma requestNext_lookup remoteName st r :
  m_lookup (requestNext remoteName st).1 !! r =
    if decide (r = remoteName)
    then (fun cb => mkCB (minSeqNo cb) (int_add (maxSeqNo cb) 1) (inactiveTime cb))
           <$> m_lookup st !! r
    else m_lookup st !! r.
Proof.
  destruct (m_lookup st !! remoteName) as [cb|] eqn:Hcb.
  - rewrite (requestNext_known _ _ _ Hcb). cbn [fst m_lookup set_lookup].
    destruct (decide (r = remoteName)) as [->|Hne].
    + by rewrite lookup_insert_eq, Hcb.
    + by rewrite lookup_insert_ne.
  - rewrite (requestNext_unknown _ _ Hcb). cbn [fst].
    destruct (decide (r = remoteName)) as [->|Hne]; [by rewrite Hcb|done].
Qed.

(** What one operation does to the entry of [r], counters apart: nothing
    but a heartbeat request creates it, and its [inactiveTime] is reset by a
    heartbeat request, advanced by a monitoring round and otherwise kept. *)
Lemma step_entry op st st' out r :
  step op st = Done st' out ->
  match m_lookup st !! r with
  | None => quiet r op -> m_lookup st' !! r = None
  | Some cb =>
      m_lookup st' !! r = None \/
      exists cb', m_lookup st' !! r = Some cb' /\
        (inactiveTime cb' = 0 /\ ~ quiet r op \/
         inactiveTime cb' = if isTick op then int_add (inactiveTime cb) 1 else inactiveTime cb)
  end.
Proof.
  destruct op as [name|name content|remoteName|]; cbn [step quiet isTick].
  - destruct (onInterest name st) as [st1 out1] eqn:Hon. intros [= <- <-].
    replace st1 with (onInterest name st).1 by by rewrite Hon.
    destruct (decide (isHeartbeat (name_last name) = true /\ name_proj name = r))
      as [[Hhb <-]|Hq].
    + rewrite (onInterest_self _ _ Hhb).
      destruct (m_lookup st !! name_proj name) as [cb|]; [|tauto].
      right. eexists. split; [done|]. left. cbn. tauto.
    + rewrite onInterest_other by tauto.
      destruct (m_lookup st !! r) as [cb|]; [|done].
      right. exists cb. split; [done|]. by right.
  - intros Hdata. destruct (onData_table _ _ _ _ _ Hdata) as [_ Ht].
    destruct (Ht r) as (_ & Hnone & Hsome).
    destruct (m_lookup st !! r) as [cb|]; [|by intros _; apply Hnone].
    destruct (Hsome cb eq_refl) as [Hn|(lo & hi & Hcb')]; [by left|].
    right. eexists. split; [exact Hcb'|]. by right.
  - destruct (requestNext remoteName st) as [st1 out1] eqn:Hreq. intros [= <- <-].
    replace st1 with (requestNext remoteName st).1 by by rewrite Hreq.
    rewrite requestNext_lookup.
    destruct (m_lookup st !! r) as [cb|]; [|by destruct (decide _)].
    right. destruct (decide _); eexists; (split; [done|]); by right.
  - intros [= <- <-]. rewrite controlBlockMonitoring_lookup.
    destruct (m_lookup st !! r) as [cb|]; [|done].
    destruct (expired (tickBlock cb)); [by left|].
    right. eexists. split; [done|]. by right.
Qed.

Lemma initial_inactive_ok projname msg : inactive_ok (initial projname msg).
Proof. intros r cb Hcb. cbn in Hcb. by rewrite lookup_empty in Hcb. Qed.

Lemma step_inactive_ok op st st' out :
  inactive_ok st -> step op st = Done st' out -> inactive_ok st'.
Proof.
  intros Hok Hstep r cb' Hcb'. unfold MAX_INACTIVE_TIME.
  pose proof (step_entry op st st' out r Hstep) as He.
  destruct (m_lookup st !! r) as [cb|] eqn:Hcb.
  - destruct He as [He|(cb2 & Hcb2 & He)]; [congruence|].
    assert (cb2 = cb') as -> by congruence.
    specialize (Hok r cb Hcb). unfold MAX_INACTIVE_TIME in Hok.
    destruct He as [[-> _]|He]; [lia|]. rewrite He.
    destruct op as [| | |]; cbn [isTick]; try lia.
    cbn in Hstep. injection Hstep as <- _.
    rewrite controlBlockMonitoring_lookup, Hcb in Hcb'.
    destruct (expired (tickBlock cb)) eqn:Hexp; [done|].
    unfold expired, tickBlock, MAX_INACTIVE_TIME in Hexp. cbn in Hexp.
    apply Z.ltb_ge in Hexp. destruct int_bounds.
    rewrite int_add_id in Hexp |- * by lia. lia.
  - destruct op as [name| | |]; cbn [quiet] in He; try (by rewrite He in Hcb').
    destruct (decide (isHeartbeat (name_last name) = true)) as [Hhb|Hhb];
      [|by rewrite He in Hcb'].
    destruct (decide (name_proj name = r)) as [<-|Hne]; [|by rewrite He in Hcb'].
    cbn in Hstep. destruct (onInterest name st) as [st1 out1] eqn:Hon.
    injection Hstep as <- <-.
    replace st1 with (onInterest name st).1 in Hcb' by by rewrite Hon.
    rewrite (onInterest_self _ _ Hhb), Hcb in Hcb'. injection Hcb' as <-. cbn. lia.
Qed.

Lemma steps_inactive_ok P ops : forall st st',
  inactive_ok st -> steps P st ops st' -> inactive_ok st'.
Proof.
  induction ops as [|op ops IH]; intros st st' Hok Hsteps; inversion Hsteps; subst; [done|].
  eapply IH; [|eassumption]. by eapply step_inactive_ok.
Qed.

(** While no heartbeat request of [r] arrives, the entry of [r] is not
    created, and its [inactiveTime] counts the monitoring rounds. *)
Lemma steps_quiet P r ops : forall st st',
  inactive_ok st -> Forall (quiet r) ops -> steps P st ops st' ->
  match m_lookup st !! r with
  | None => m_lookup st' !! r = None
  | Some cb =>
      m_lookup st' !! r = None \/
      exists cb', m_lookup st' !! r = Some cb' /\
        inactiveTime cb' = inactiveTime cb + Z.of_nat (ticks ops)
  end.
Proof.
  induction ops as [|op ops IH]; intros st st' Hok Hquiet Hsteps;
    inversion Hsteps as [|? ? st1 out ? ? _ Hstep Hrest]; subst.
  - destruct (m_lookup st' !! r) as [cb|]; [|done].
    right. exists cb. split; [done|]. unfold ticks. cbn. lia.
  - apply Forall_cons in Hquiet as [Hq Hquiet].
    pose proof (step_inactive_ok _ _ _ _ Hok Hstep) as Hok1.
    specialize (IH st1 st' Hok1 Hquiet Hrest).
    pose proof (step_entry op st st1 out r Hstep) as He.
    destruct (m_lookup st !! r) as [cb|] eqn:Hcb.
    + destruct He as [He|(cb1 & Hcb1 & He)].
      * rewrite He in IH. by left.
      * rewrite Hcb1 in IH. destruct IH as [IH|(cb' & Hcb' & IH)]; [by left|].
        right. exists cb'. split; [done|]. rewrite IH.
        destruct He as [[_ Hnq]|He]; [done|]. rewrite He.
        unfold ticks. cbn [List.filter].
        destruct (isTick op) eqn:Htick; cbn [length]; [|lia].
        specialize (Hok r cb Hcb). unfold MAX_INACTIVE_TIME in Hok.
        destruct int_bounds. rewrite int_add_id by lia. lia.
    + rewrite (He Hq) in IH. exact IH.
Qed.

(** What a returning [onData] does to an entry, when the windows are well
    formed and no sequence number is near overflow: it keeps it, erases it,
    or advances both ends of its window past an accepted [seq]. *)
Lemma onData_window name content st st' out r :
  windows_ok st -> small st ->
  onData name content st = Done st' out ->
  m_lookup st' !! r = m_lookup st !! r \/
  m_lookup st' !! r = None \/
  exists cb seq,
    m_lookup st !! r = Some cb /\ minSeqNo cb <= seq <= maxSeqNo cb /\
    m_lookup st' !! r =
      Some (mkCB (seq + 1) (maxSeqNo cb + (seq - minSeqNo cb + 1)) (inactiveTime cb)).
Proof.
  intros Hwin Hsmall. unfold onData.
  destruct (isHeartbeat _); [intros [= <- <-]; by left|].
  destruct (toSequenceNumber _) as [n|]; [|done].
  destruct (m_lookup st !! name_user name) as [cb|] eqn:Hcb; [|intros [= <- <-]; by left].
  destruct (_ || _); [done|].
  destruct (Z.ltb_spec (int_of_uint64 n) (minSeqNo cb)); [intros [= <- <-]; by left|].
  destruct (Z.ltb_spec (maxSeqNo cb) (int_of_uint64 n)); [intros [= <- <-]; by left|].
  specialize (Hwin _ _ Hcb). specialize (Hsmall _ _ Hcb). destruct int_bounds as [Hlo Hhi].
  set (seq := int_of_uint64 n) in *.
  rewrite diff_id by lia. rewrite int_add_id by lia.
  replace (minSeqNo cb + (seq - minSeqNo cb + 1)) with (seq + 1) by lia.
  match goal with |- context [playLoop ?k 0 ?b ?r ?s] =>
    destruct (playLoop k 0 b r s) as [[[returned st2] sends]|] eqn:Hplay end; [|done].
  apply playLoop_lookup in Hplay as [Hp2 Ht2]. cbn [m_projName m_lookup set_lookup] in Hp2, Ht2.
  destruct returned.
  - intros [= <- <-]. rewrite Ht2, delete_insert_eq.
    destruct (decide (r = name_user name)) as [->|Hne].
    + right. left. apply lookup_delete_eq.
    + left. by apply lookup_delete_ne.
  - erewrite (requestLoop_known _ (name_user name) st2); cycle 1.
    + rewrite Ht2. apply lookup_insert_eq.
    + cbn. lia.
    + cbn. lia.
    + intros [= <- <-]. cbn [m_lookup set_lookup minSeqNo maxSeqNo inactiveTime].
      rewrite Ht2, insert_insert_eq, Z2Nat.id by lia.
      destruct (decide (r = name_user name)) as [->|Hne].
      * right. right. exists cb, seq. rewrite lookup_insert_eq. split; [done|]. split; [lia|done].
      * left. by apply lookup_insert_ne.
Qed.

(** One operation keeps the windows well formed and moves no [minSeqNo]
    back. *)
Lemma step_window op st st' out :
  windows_ok st -> small st -> step op st = Done st' out ->
  windows_ok st' /\
  forall r cb cb',
    m_lookup st !! r = Some cb -> m_lookup st' !! r = Some cb' ->
    minSeqNo cb <= minSeqNo cb'.
Proof.
  intros Hwin Hsmall Hstep.
  cut (forall r cb', m_lookup st' !! r = Some cb' ->
         0 <= minSeqNo cb' <= maxSeqNo cb' /\
         forall cb, m_lookup st !! r = Some cb -> minSeqNo cb <= minSeqNo cb').
  { intros H. split.
    - intros r cb' Hcb'. by apply (H r cb').
    - intros r cb cb' Hcb Hcb'. by apply (H r cb'). }
  assert (Hkeep : forall r cb', m_lookup st !! r = Some cb' ->
            0 <= minSeqNo cb' <= maxSeqNo cb' /\
            forall cb, m_lookup st !! r = Some cb -> minSeqNo cb <= minSeqNo cb').
  { intros r cb' Hcb'. split; [by apply (Hwin r)|]. intros cb Hcb.
    by replace cb with cb' by congruence. }
  intros r cb'. destruct int_bounds as [Hlo Hhi].
  destruct op as [name|name content|remoteName|]; cbn [step] in Hstep.
  - destruct (onInterest name st) as [st1 out1] eqn:Hon. injection Hstep as <- <-.
    replace st1 with (onInterest name st).1 by by rewrite Hon.
    destruct (decide (isHeartbeat (name_last name) = true /\ name_proj name = r))
      as [[Hhb <-]|Hq].
    + rewrite (onInterest_self _ _ Hhb).
      destruct (m_lookup st !! name_proj name) as [cb|] eqn:Hcb; intros [= <-]; cbn.
      * split; [by apply (Hwin _ _ Hcb)|]. by intros ? [= <-].
      * unfold PREWARM_AMOUNT. split; [lia|done].
    + rewrite onInterest_other by tauto. apply Hkeep.
  - destruct (onData_window _ _ _ _ _ r Hwin Hsmall Hstep)
      as [->|[->|(cb & seq & Hcb & Hseq & ->)]]; [apply Hkeep|done|].
    intros [= <-]. cbn. specialize (Hwin _ _ Hcb).
    split; [lia|]. intros cb0 Hcb0. replace cb0 with cb by congruence. lia.
  - destruct (requestNext remoteName st) as [st1 out1] eqn:Hreq. injection Hstep as <- <-.
    replace st1 with (requestNext remoteName st).1 by by rewrite Hreq.
    rewrite requestNext_lookup. destruct (decide _); [|apply Hkeep].
    destruct (m_lookup st !! r) as [cb|] eqn:Hcb; [|done]. intros [= <-]. cbn.
    specialize (Hwin _ _ Hcb). specialize (Hsmall _ _ Hcb).
    rewrite int_add_id by lia. split; [lia|]. by intros ? [= <-].
  - injection Hstep as <- <-. rewrite controlBlockMonitoring_lookup.
    destruct (m_lookup st !! r) as [cb|] eqn:Hcb; [|done].
    destruct (expired _); [done|]. intros [= <-]. cbn.
    split; [by apply (Hwin _ _ Hcb)|]. by intros ? [= <-].
Qed.

Lemma initial_windows_ok projname msg : windows_ok (initial projname msg).
Proof. intros r cb Hcb. cbn in Hcb. by rewrite lookup_empty in Hcb. Qed.

Lemma steps_windows_ok ops : forall st st',
  windows_ok st -> steps small st ops st' -> windows_ok st'.
Proof.
  induction ops as [|op ops IH]; intros st st' Hok Hsteps; inversion Hsteps; subst; [done|].
  eapply IH; [|eassumption]. by eapply step_window.
Qed.

(** C1: along every sequence of operations from the initial state
    (handshakes and heartbeats, responses with any sequence number, calls of
    [requestNext], monitoring rounds), at every operation boundary, every
    control block in the table has [minSeqNo <= maxSeqNo], and no operation
    moves the [minSeqNo] of a control block back.  (Every operation returns
    and none starts with a sequence number near the end of the [int]
    range.) *)
Theorem window_invariant projname msg ops st op st' out :
  steps small (initial projname msg) ops st ->
  small st -> step op st = Done st' out ->
  (forall r cb', m_lookup st' !! r = Some cb' -> minSeqNo cb' <= maxSeqNo cb') /\
  (forall r cb cb',
     m_lookup st !! r = Some cb -> m_lookup st' !! r = Some cb' ->
     minSeqNo cb <= minSeqNo cb').
Proof.
  intros Hsteps Hsmall Hstep.
  pose proof (steps_windows_ok _ _ _ (initial_windows_ok projname msg) Hsteps) as Hwin.
  destruct (step_window _ _ _ _ Hwin Hsmall Hstep) as [Hwin' Hmono].
  split; [|done]. intros r cb' Hcb'. by apply (Hwin' r cb').
Qed.

Lemma small_session cb : maxSeqNo cb < 2 ^ 30 -> small (session cb).
Proof.
  intros Hcb r cb' Hr. cbn in Hr.
  apply lookup_singleton_Some in Hr as [_ <-]. exact Hcb.
Qed.

Lemma small_initial projname msg : small (initial projname msg).
Proof. intros r cb Hcb. cbn in Hcb. by rewrite lookup_empty in Hcb. Qed.

Lemma window_invariant_witness :
  (forall r cb',
     m_lookup (mkState "tmp-proj" {[ "peerA"%string := mkCB 3 8 0 ]} noteOn) !! r = Some cb' ->
     minSeqNo cb' <= maxSeqNo cb') /\
  (forall r cb cb',
     m_lookup (session (mkCB 0 5 0)) !! r = Some cb ->
     m_lookup (mkState "tmp-proj" {[ "peerA"%string := mkCB 3 8 0 ]} noteOn) !! r = Some cb' ->
     minSeqNo cb <= minSeqNo cb').
Proof.
  apply (window_invariant "tmp-proj" [zero; zero; zero] [OnInterest hello]
           (session (mkCB 0 5 0)) (OnData (response 2) noteOn)
           (mkState "tmp-proj" {[ "peerA"%string := mkCB 3 8 0 ]} noteOn)
           (SendMessage noteOn :: requests "peerA" "tmp-proj" 5 3)).
  - eapply steps_cons; [apply small_initial | vm_compute; reflexivity | apply steps_nil].
  - apply small_session. reflexivity.
  - vm_compute. reflexivity.
Defined.

(** *** Inactivity *)

(** C7: one round of the monitoring thread increments [inactiveTime] of
    every control block and erases every block whose counter then exceeds
    [MAX_INACTIVE_TIME]; and once [MAX_INACTIVE_TIME + 1] rounds have passed
    without a heartbeat request of a remote, whatever else happened in
    between, the remote is not in the table. *)
Theorem monitoring_reclaims projname msg ops st :
  steps any (initial projname msg) ops st ->
  (forall r,
     m_lookup (controlBlockMonitoring st) !! r =
       match m_lookup st !! r with
       | Some cb =>
           if MAX_INACTIVE_TIME <? inactiveTime cb + 1 then None
           else Some (mkCB (minSeqNo cb) (maxSeqNo cb) (inactiveTime cb + 1))
       | None => None
       end) /\
  (forall r ops' st',
     Forall (quiet r) ops' ->
     (Z.to_nat MAX_INACTIVE_TIME + 1 <= ticks ops')%nat ->
     steps any st ops' st' ->
     m_lookup st' !! r = None).
Proof.
  intros Hsteps.
  pose proof (steps_inactive_ok _ _ _ _ (initial_inactive_ok projname msg) Hsteps) as Hok.
  split.
  - intros r. rewrite controlBlockMonitoring_lookup.
    destruct (m_lookup st !! r) as [cb|] eqn:Hcb; [|done].
    specialize (Hok _ _ Hcb). unfold MAX_INACTIVE_TIME in Hok. destruct int_bounds.
    unfold expired, tickBlock. cbn [inactiveTime]. by rewrite int_add_id by lia.
  - intros r ops' st' Hquiet Hticks Hsteps'.
    pose proof (steps_inactive_ok _ _ _ _ Hok Hsteps') as Hok'.
    pose proof (steps_quiet _ r _ _ _ Hok Hquiet Hsteps') as Hr.
    destruct (m_lookup st !! r) as [cb|] eqn:Hcb; [|done].
    destruct Hr as [Hr|(cb' & Hcb' & Hr)]; [done|].
    specialize (Hok _ _ Hcb). specialize (Hok' _ _ Hcb').
    unfold MAX_INACTIVE_TIME in *. lia.
Qed.

Lemma monitoring_reclaims_witness :
  (forall r,
     m_lookup (controlBlockMonitoring (session (mkCB 0 5 0))) !! r =
       match m_lookup (session (mkCB 0 5 0)) !! r with
       | Some cb =>
           if MAX_INACTIVE_TIME <? inactiveTime cb + 1 then None
           else Some (mkCB (minSeqNo cb) (maxSeqNo cb) (inactiveTime cb + 1))
       | None => None
       end) /\
  (forall r ops' st',
     Forall (quiet r) ops' ->
     (Z.to_nat MAX_INACTIVE_TIME + 1 <= ticks ops')%nat ->
     steps any (session (mkCB 0 5 0)) ops' st' ->
     m_lookup st' !! r = None).
Proof.
  apply (monitoring_reclaims "tmp-proj" [zero; zero; zero] [OnInterest hello]
           (session (mkCB 0 5 0))).
  eapply steps_cons; [exact I | vm_compute; reflexivity | apply steps_nil].
Defined.

(** Six rounds in a row, with a response accepted in between, on the table
    of the witness. *)
Example six_rounds_erase :
  exists st',
    steps any (session (mkCB 0 5 0))
      [MonitorTick; MonitorTick; OnData (response 0) noteOn; MonitorTick; MonitorTick;
       MonitorTick; MonitorTick] st' /\
    m_lookup st' !! "peerA"%string = None.
Proof.
  eexists. split.
  - repeat (eapply steps_cons; [exact I | vm_compute; reflexivity |]). apply steps_nil.
  - reflexivity.
Qed.

(** C8, as the code has it: [inactiveTime] of an existing control block is
    reset to 0 by a heartbeat request of its remote ([onInterest]); no Data
    packet, accepted, dropped or named heartbeat, changes the [inactiveTime]
    of a block that stays in the table. *)
Theorem inactiveTime_reset_by_heartbeat_request st r cb :
  m_lookup st !! r = Some cb ->
  (forall name,
     isHeartbeat (name_last name) = true -> name_proj name = r ->
     m_lookup (onInterest name st).1 !! r = Some (mkCB (minSeqNo cb) (maxSeqNo cb) 0)) /\
  (forall name content st' out cb',
     onData name content st = Done st' out ->
     m_lookup st' !! r = Some cb' ->
     inactiveTime cb' = inactiveTime cb).
Proof.
  intros Hcb. split.
  - intros name Hhb <-. by rewrite (onInterest_self _ _ Hhb), Hcb.
  - intros name content st' out cb' Hdata Hcb'.
    destruct (onData_table _ _ _ _ _ Hdata) as [_ Ht].
    destruct (Ht r) as (_ & _ & Hsome).
    destruct (Hsome cb Hcb) as [Hn|(lo & hi & Hr)]; [congruence|].
    rewrite Hr in Hcb'. by injection Hcb' as <-.
Qed.

Lemma inactiveTime_reset_by_heartbeat_request_witness :
  (forall name,
     isHeartbeat (name_last name) = true -> name_proj name = "peerA"%string ->
     m_lookup (onInterest name (session (mkCB 0 5 3))).1 !! "peerA"%string
       = Some (mkCB 0 5 0)) /\
  (forall name content st' out cb',
     onData name content (session (mkCB 0 5 3)) = Done st' out ->
     m_lookup st' !! "peerA"%string = Some cb' ->
     inactiveTime cb' = 3).
Proof.
  apply (inactiveTime_reset_by_heartbeat_request (session (mkCB 0 5 3)) "peerA" (mkCB 0 5 3)).
  reflexivity.
Defined.

(** C8 fails as stated: an accepted data response leaves [inactiveTime] at
    3. *)
Lemma data_response_keeps_inactiveTime :
  onData (response 0) noteOn (session (mkCB 0 5 3)) =
    Done (mkState "tmp-proj" {[ "peerA"%string := mkCB 1 6 3 ]} noteOn)
         [SendMessage noteOn; request "peerA" "tmp-proj" 5] /\
  inactiveTime (mkCB 1 6 3) <> 0.
Proof. split; [vm_compute; reflexivity | discriminate]. Qed.

(** C3 at the boundary: a response with [seq = maxSeqNo], a sequence number
    no Interest was expressed for, is accepted.  [minSeqNo] moves to
    [maxSeqNo + 1], the content is sent to the device and six Interests, for
    5 to 10, are expressed. *)
Example onData_accepts_seq_maxSeqNo :
  onData (response 5) noteOn (session (mkCB 0 5 0)) =
    Done (mkState "tmp-proj" {[ "peerA"%string := mkCB 6 11 0 ]} noteOn)
         (SendMessage noteOn :: requests "peerA" "tmp-proj" 5 6).
Proof. vm_compute. reflexivity. Qed.

End PlaybackFacts.

Module ControllerFacts.
Import Controller.

Implicit Types (st : State) (msg : MIDIMessage) (name : Name).

(** *** The batching loop *)

(** From [k] messages in the buffer the loop takes the first
    [MAX_BATCH - k] messages of the queue, in order, and leaves the rest. *)
Lemma fillBuf_spec queue : forall buf k,
  length buf = MAX_BATCH -> (k <= MAX_BATCH)%nat ->
  exists buf',
    fillBuf queue buf k =
      (drop (MAX_BATCH - k) queue, buf', (k + length (take (MAX_BATCH - k) queue))%nat) /\
    length buf' = MAX_BATCH /\
    take (k + length (take (MAX_BATCH - k) queue)) buf' =
      take k buf ++ take (MAX_BATCH - k) queue.
Proof.
  induction queue as [|front rest IH]; intros buf k Hbuf Hk.
  - exists buf. cbn [fillBuf]. rewrite drop_nil, take_nil. cbn [length].
    rewrite Nat.add_0_r, app_nil_r. done.
  - cbn [fillBuf]. destruct (Nat.ltb_spec k MAX_BATCH) as [Hlt|Hge].
    + destruct (IH (<[k := front]> buf) (S k)) as (buf' & Hfill & Hlen & Htake);
        [by rewrite length_insert|lia|].
      exists buf'. rewrite Hfill.
      replace (MAX_BATCH - k)%nat with (S (MAX_BATCH - S k)) by lia.
      cbn [drop take length]. split; [|split; [done|]].
      * f_equal. lia.
      * replace (k + S (length (take (MAX_BATCH - S k) rest)))%nat
          with (S k + length (take (MAX_BATCH - S k) rest))%nat by lia.
        rewrite Htake.
        rewrite (take_S_r _ k front) by (apply list_lookup_insert_eq; lia).
        rewrite take_insert_ge by lia. by rewrite <- app_assoc.
    + exists buf. replace (MAX_BATCH - k)%nat with 0%nat by lia.
      cbn [drop take length]. rewrite Nat.add_0_r, app_nil_r. done.
Qed.

Lemma length_bytes (items : list MIDIMessage) :
  length (concat (bytes <$> items)) = (3 * length items)%nat.
Proof. induction items as [|m items IH]; cbn; [done|]. rewrite IH. lia. Qed.

(** *** replyInterest *)

(** A disconnected controller drops both queues and answers nothing. *)
Lemma replyInterest_disconnected st :
  m_connGood st = false -> replyInterest st = (set_queues st [] [], []).
Proof. unfold replyInterest. by intros ->. Qed.

(** C5: one call of [replyInterest] answers at most one Interest, and only
    when both queues are non-empty at the call (and the connection is up).
    When it answers, it takes the first Interest of its queue and the first
    [MAX_BATCH] messages at most of the input queue, and the Data it puts has
    the name of that Interest and, as content, the bytes of these messages
    in order. *)
Theorem replyInterest_drains st :
  length (midiBuf st) = MAX_BATCH ->
  let st' := (replyInterest st).1 in
  let items := take MAX_BATCH (m_inputQueue st) in
  match (replyInterest st).2 with
  | [] =>
      ~ (m_connGood st = true /\ m_inputQueue st <> [] /\ m_interestQueue st <> [])
  | [PutData name content] =>
      m_connGood st = true /\ m_inputQueue st <> [] /\ m_interestQueue st <> [] /\
      m_interestQueue st = name :: m_interestQueue st' /\
      m_inputQueue st = items ++ m_inputQueue st' /\
      (1 <= length items <= MAX_BATCH)%nat /\
      content = concat (bytes <$> items) /\
      length content = (3 * length items)%nat
  | _ => False
  end.
Proof.
  intros Hbuf. unfold replyInterest.
  destruct (m_connGood st) eqn:Hconn; cbn [negb].
  - destruct (m_inputQueue st) as [|msg inputs] eqn:Hin; [cbn; tauto|].
    destruct (m_interestQueue st) as [|name interests] eqn:Hint; [cbn; tauto|].
    destruct (fillBuf_spec (msg :: inputs) (midiBuf st) 0 Hbuf) as (buf & Hfill & _ & Htake);
      [lia|].
    rewrite Nat.sub_0_r in Hfill, Htake. cbn [Nat.add take app] in Hfill, Htake.
    rewrite Hfill. cbn [fst snd m_inputQueue m_interestQueue set_queues].
    rewrite Htake. repeat split; try done.
    + by rewrite take_drop.
    + cbn. lia.
    + rewrite length_take. lia.
    + apply length_bytes.
  - cbn. intros [? _]. done.
Qed.

Lemma replyInterest_drains_witness :
  let st := controller true 0 [noteOn; noMsg] [pull 0; pull 1] in
  let st' := (replyInterest st).1 in
  let items := take MAX_BATCH (m_inputQueue st) in
  match (replyInterest st).2 with
  | [] =>
      ~ (m_connGood st = true /\ m_inputQueue st <> [] /\ m_interestQueue st <> [])
  | [PutData name content] =>
      m_connGood st = true /\ m_inputQueue st <> [] /\ m_interestQueue st <> [] /\
      m_interestQueue st = name :: m_interestQueue st' /\
      m_inputQueue st = items ++ m_inputQueue st' /\
      (1 <= length items <= MAX_BATCH)%nat /\
      content = concat (bytes <$> items) /\
      length content = (3 * length items)%nat
  | _ => False
  end.
Proof.
  apply (replyInterest_drains (controller true 0 [noteOn; noMsg] [pull 0; pull 1])).
  reflexivity.
Defined.

(** Twelve queued messages: the first ten leave in one Data of 30 bytes. *)
Example replyInterest_batch :
  let st := controller true 0 (replicate 12 noteOn) [pull 0; pull 1] in
  (replyInterest st).2 = [PutData (pull 0) (concat (bytes <$> replicate 10 noteOn))] /\
  m_inputQueue (replyInterest st).1 = [noteOn; noteOn] /\
  m_interestQueue (replyInterest st).1 = [pull 1].
Proof. repeat split. Qed.

(** *** The heartbeat probe *)

(** C6, as the code has it: a round of [sendHeartbeat] after which
    [m_hbCount] exceeds [MAX_HEARTBEAT_PROBE], on a connected controller,
    sets [m_connGood] to false and leaves both queues as they are; the next
    call of [replyInterest] empties both and answers nothing. *)
Theorem sendHeartbeat_disconnects st :
  m_connGood st = true ->
  MAX_HEARTBEAT_PROBE < m_hbCount (sendHeartbeat st).1 ->
  let st1 := (sendHeartbeat st).1 in
  m_connGood st1 = false /\
  m_inputQueue st1 = m_inputQueue st /\
  m_interestQueue st1 = m_interestQueue st /\
  (replyInterest st1).2 = [] /\
  m_inputQueue (replyInterest st1).1 = [] /\
  m_interestQueue (replyInterest st1).1 = [] /\
  m_connGood (replyInterest st1).1 = false.
Proof.
  intros Hconn Hmiss st1.
  assert (Hoff : m_connGood st1 = false).
  { subst st1. cbn in *. rewrite Hconn.
    by destruct (Z.ltb_spec MAX_HEARTBEAT_PROBE (int_add (m_hbCount st) 1)); [|lia]. }
  rewrite (replyInterest_disconnected _ Hoff). by repeat split.
Qed.

Lemma sendHeartbeat_disconnects_witness :
  let st := controller true 3 [noteOn] [pull 0] in
  let st1 := (sendHeartbeat st).1 in
  m_connGood st1 = false /\
  m_inputQueue st1 = m_inputQueue st /\
  m_interestQueue st1 = m_interestQueue st /\
  (replyInterest st1).2 = [] /\
  m_inputQueue (replyInterest st1).1 = [] /\
  m_interestQueue (replyInterest st1).1 = [] /\
  m_connGood (replyInterest st1).1 = false.
Proof.
  apply (sendHeartbeat_disconnects (controller true 3 [noteOn] [pull 0])).
  - reflexivity.
  - vm_compute. reflexivity.
Defined.

(** C6 fails as stated: after the round in which [m_hbCount] reaches 4 the
    connection is down and both queues still hold their entries. *)
Lemma sendHeartbeat_keeps_queues :
  let st1 := (sendHeartbeat (controller true 3 [noteOn] [pull 0])).1 in
  m_hbCount st1 = 4 /\ m_connGood st1 = false /\
  m_inputQueue st1 = [noteOn] /\ m_interestQueue st1 = [pull 0] /\
  m_inputQueue st1 <> [] /\ m_interestQueue st1 <> [].
Proof. vm_compute. repeat split; discriminate. Qed.

(** *** addInput *)

(** C9, as the code has it: [addInput] appends the message to the input
    queue whether the connection is up or not; on a disconnected controller
    the next call of [replyInterest] empties the queue and answers
    nothing. *)
Theorem addInput_appends msg st :
  m_inputQueue (addInput msg st) = m_inputQueue st ++ [msg] /\
  m_interestQueue (addInput msg st) = m_interestQueue st /\
  m_connGood (addInput msg st) = m_connGood st /\
  (m_connGood st = false ->
   (replyInterest (addInput msg st)).2 = [] /\
   m_inputQueue (replyInterest (addInput msg st)).1 = [] /\
   m_interestQueue (replyInterest (addInput msg st)).1 = []).
Proof.
  do 3 (split; [done|]). intros Hoff.
  by rewrite replyInterest_disconnected.
Qed.

(** C9 fails as stated: on a disconnected controller [addInput] buffers the
    message. *)
Lemma addInput_buffers_disconnected :
  m_connGood (controller false 4 [] []) = false /\
  m_inputQueue (addInput noteOn (controller false 4 [] [])) = [noteOn] /\
  m_inputQueue (addInput noteOn (controller false 4 [] [])) <> [].
Proof. repeat split. discriminate. Qed.

End ControllerFacts.

(** * Further properties of the consumer *)

Module PlaybackExtras.
Import PlaybackModule PlaybackFacts.

Implicit Types (st : State) (cb : MIDIControlBlock) (r remoteName : string).
Implicit Types (content buffer : list byte) (name : Name).

(** An accepted response either erases the entry of its remote or moves the
    window past its sequence number. *)
Lemma onData_accepted_cases name content st st' out n cb :
  name_last name = SequenceNumber n ->
  m_lookup st !! name_user name = Some cb ->
  0 <= minSeqNo cb -> minSeqNo cb <= int_of_uint64 n <= maxSeqNo cb ->
  maxSeqNo cb < 2 ^ 30 ->
  onData name content st = Done st' out ->
  m_lookup st' = delete (name_user name) (m_lookup st) \/
  m_lookup st' =
    <[name_user name :=
        mkCB (int_of_uint64 n + 1)
             (maxSeqNo cb + (int_of_uint64 n - minSeqNo cb + 1)) (inactiveTime cb)]>
      (m_lookup st).
Proof.
  intros Hlast Hcb Hmin Hwin Hsmall. unfold onData.
  rewrite Hlast. cbn [isHeartbeat toSequenceNumber]. rewrite Hcb.
  destruct (_ || _); [done|].
  destruct (Z.ltb_spec (int_of_uint64 n) (minSeqNo cb)); [lia|].
  destruct (Z.ltb_spec (maxSeqNo cb) (int_of_uint64 n)); [lia|].
  destruct int_bounds as [Hlo Hhi].
  set (seq := int_of_uint64 n) in *.
  rewrite diff_id by lia. rewrite int_add_id by lia.
  replace (minSeqNo cb + (seq - minSeqNo cb + 1)) with (seq + 1) by lia.
  match goal with |- context [playLoop ?k 0 ?b ?r ?s] =>
    destruct (playLoop k 0 b r s) as [[[returned st2] sends]|] eqn:Hplay end; [|done].
  apply playLoop_lookup in Hplay as [Hp2 Ht2]. cbn [m_projName m_lookup set_lookup] in Hp2, Ht2.
  destruct returned.
  - intros [= <- <-]. left. by rewrite Ht2, delete_insert_eq.
  - erewrite (requestLoop_known _ (name_user name) st2); cycle 1.
    + rewrite Ht2. apply lookup_insert_eq.
    + cbn. lia.
    + cbn. lia.
    + intros [= <- <-]. right. cbn [m_lookup set_lookup minSeqNo maxSeqNo inactiveTime].
      by rewrite Ht2, insert_insert_eq, Z2Nat.id by lia.
Qed.

(** *** Handshake and heartbeat *)

(** X1: the handshake of an unknown remote creates its control block with
    the window [0, PREWARM_AMOUNT) and a zero inactivity counter, answers
    the Interest with the content ACCEPTED under the same name, and then
    expresses [PREWARM_AMOUNT] Interests, for the sequence numbers 0 to 4 of
    that remote, in this order. *)
Theorem handshake_prewarms name st :
  isHeartbeat (name_last name) = true ->
  m_lookup st !! name_proj name = None ->
  exists st',
    onInterest name st =
      (st', PutData name ACCEPTED :: requests (name_proj name) (m_projName st) 0 5) /\
    m_lookup st' = <[name_proj name := mkCB 0 5 0]> (m_lookup st) /\
    message st' = message st /\ m_projName st' = m_projName st.
Proof.
  intros Hhb Hnew. rewrite (onInterest_accept _ _ Hhb Hnew).
  eexists. split; [reflexivity|]. done.
Qed.

Lemma handshake_prewarms_witness :
  exists st',
    onInterest hello (initial "tmp-proj" [zero; zero; zero]) =
      (st', PutData hello ACCEPTED :: requests "peerA" "tmp-proj" 0 5) /\
    m_lookup st' = <["peerA"%string := mkCB 0 5 0]> ∅ /\
    message st' = [zero; zero; zero] /\ m_projName st' = "tmp-proj"%string.
Proof.
  apply (handshake_prewarms hello (initial "tmp-proj" [zero; zero; zero])).
  - reflexivity.
  - reflexivity.
Defined.

(** X2: a repeated handshake is a heartbeat.  After [onInterest] has
    handled an Interest named heartbeat, handling the same Interest again
    answers ACCEPTED and nothing else: no Interest is expressed a second
    time and the state, the window included, stays as the first call left
    it. *)
Theorem handshake_twice name st :
  isHeartbeat (name_last name) = true ->
  onInterest name (onInterest name st).1 =
    ((onInterest name st).1, [PutData name ACCEPTED]).
Proof.
  intros Hhb.
  pose proof (onInterest_self name st Hhb) as Hself.
  set (cb1 := match m_lookup st !! name_proj name with
              | Some cb => mkCB (minSeqNo cb) (maxSeqNo cb) 0
              | None => mkCB 0 PREWARM_AMOUNT 0
              end) in Hself.
  rewrite (onInterest_heartbeat _ _ _ Hhb Hself). f_equal.
  assert (Hcb1 : mkCB (minSeqNo cb1) (maxSeqNo cb1) 0 = cb1).
  { subst cb1. by destruct (m_lookup st !! name_proj name). }
  rewrite Hcb1, insert_id by done. apply set_lookup_id.
Qed.

Lemma handshake_twice_witness :
  onInterest hello (onInterest hello (initial "tmp-proj" [zero; zero; zero])).1 =
    ((onInterest hello (initial "tmp-proj" [zero; zero; zero])).1, [PutData hello ACCEPTED]).
Proof.
  apply (handshake_twice hello (initial "tmp-proj" [zero; zero; zero])).
  reflexivity.
Defined.

(** *** Responses *)

(** X3: rejection changes nothing.  A response for a known remote whose
    sequence number is below [minSeqNo] (stale) or above [maxSeqNo] leaves
    the whole state as it is and makes no call on the transport or the
    device. *)
Theorem response_outside_window_ignored name content st n cb :
  name_last name = SequenceNumber n ->
  m_lookup st !! name_user name = Some cb ->
  (length content <= 30)%nat ->
  int_of_uint64 n < minSeqNo cb \/ maxSeqNo cb < int_of_uint64 n ->
  onData name content st = Done st [].
Proof. apply onData_dropped. Qed.

Lemma response_outside_window_ignored_witness :
  onData (response 1) noteOn (session (mkCB 3 8 0)) = Done (session (mkCB 3 8 0)) [].
Proof.
  apply (response_outside_window_ignored (response 1) noteOn (session (mkCB 3 8 0)) 1
           (mkCB 3 8 0)).
  - reflexivity.
  - reflexivity.
  - cbn. lia.
  - left. vm_compute. reflexivity.
Defined.

(** X4: the copy into the 30-byte buffer comes before the sequence-number
    checks.  For a known remote a content of more than 30 bytes overruns
    the buffer whatever the sequence number, a stale one included. *)
Theorem oversized_content_overruns name content st n cb :
  name_last name = SequenceNumber n ->
  m_lookup st !! name_user name = Some cb ->
  (30 < length content)%nat -> Z.of_nat (length content) <= int_max ->
  onData name content st = Overrun.
Proof.
  intros Hlast Hcb Hlen Hmax. unfold onData.
  rewrite Hlast. cbn [isHeartbeat toSequenceNumber]. rewrite Hcb.
  destruct int_bounds as [Hlo Hhi]. rewrite wrap_id by lia.
  destruct (Z.ltb_spec BUFFER_SIZE (Z.of_nat (length content))) as [_|Hge].
  - by rewrite orb_true_r.
  - unfold BUFFER_SIZE in Hge. lia.
Qed.

Lemma oversized_content_overruns_witness :
  onData (response 0) (replicate 33 x90) (session (mkCB 3 8 0)) = Overrun.
Proof.
  apply (oversized_content_overruns (response 0) (replicate 33 x90) (session (mkCB 3 8 0)) 0
           (mkCB 3 8 0)).
  - reflexivity.
  - reflexivity.
  - cbn. lia.
  - vm_compute. congruence.
Defined.

(** X5: a response never opens a session and never touches another
    remote.  When [onData] returns, every remote of the new table was in
    the old one, and the control block of every remote other than the one
    the Data names is unchanged. *)
Theorem response_touches_one_remote name content st st' out :
  onData name content st = Done st' out ->
  dom (m_lookup st') ⊆ dom (m_lookup st) /\
  (forall r, r <> name_user name -> m_lookup st' !! r = m_lookup st !! r).
Proof.
  intros Hdata. destruct (onData_table _ _ _ _ _ Hdata) as [_ Ht]. split.
  - intros r [cb' Hcb']%elem_of_dom. apply elem_of_dom.
    destruct (Ht r) as (_ & Hnone & _).
    destruct (m_lookup st !! r) as [cb|]; [done|]. rewrite Hnone in Hcb'; done.
  - intros r Hne. by apply (Ht r).
Qed.

Lemma response_touches_one_remote_witness :
  dom (m_lookup (mkState "tmp-proj" {[ "peerA"%string := mkCB 1 6 3 ]} noteOn))
    ⊆ dom (m_lookup (session (mkCB 0 5 3))) /\
  (forall r, r <> name_user (response 0) ->
     m_lookup (mkState "tmp-proj" {[ "peerA"%string := mkCB 1 6 3 ]} noteOn) !! r
       = m_lookup (session (mkCB 0 5 3)) !! r).
Proof.
  apply (response_touches_one_remote (response 0) noteOn (session (mkCB 0 5 3))
           (mkState "tmp-proj" {[ "peerA"%string := mkCB 1 6 3 ]} noteOn)
           [SendMessage noteOn; request "peerA" "tmp-proj" 5]).
  vm_compute. reflexivity.
Defined.

(** X6: the shutdown message ends the response.  When an accepted
    response starts with the sentinel, the sentinel is the only message sent
    to the device: the units that follow it in the same content are never
    played, the entry of the remote is erased and no Interest is
    expressed. *)
Theorem sentinel_first_discards_rest name rest st n cb :
  name_last name = SequenceNumber n ->
  m_lookup st !! name_user name = Some cb ->
  (length (sentinel ++ rest) <= 30)%nat ->
  length (message st) = 3%nat ->
  minSeqNo cb <= int_of_uint64 n <= maxSeqNo cb ->
  exists st',
    onData name (sentinel ++ rest) st = Done st' [SendMessage sentinel] /\
    m_lookup st' = delete (name_user name) (m_lookup st) /\
    message st' = sentinel.
Proof.
  intros Hlast Hcb Hlen Hmsg Hwin.
  rewrite (onData_checks _ _ _ _ _ Hlast Hcb Hlen). cbn zeta.
  destruct (Z.ltb_spec (int_of_uint64 n) (minSeqNo cb)); [lia|].
  destruct (Z.ltb_spec (maxSeqNo cb) (int_of_uint64 n)); [lia|].
  assert (Hn : exists k, (length (sentinel ++ rest) / 3)%nat = S k).
  { exists (length rest / 3)%nat. rewrite length_app.
    change (length sentinel) with (1 * 3)%nat. by rewrite Nat.div_add_l. }
  destruct Hn as [k ->]. cbn [playLoop].
  cbn [set_lookup set_message message m_lookup m_projName].
  rewrite Hmsg. cbn [Nat.ltb Nat.leb].
  change (isShutdown (sentinel ++ rest)) with true. cbn iota.
  rewrite write_message by done. cbn [length Nat.eqb].
  eexists. split; [reflexivity|]. cbn [m_lookup message].
  by rewrite delete_insert_eq.
Qed.

Lemma sentinel_first_discards_rest_witness :
  exists st',
    onData (response 0) (sentinel ++ noteOn) (session (mkCB 0 5 0))
      = Done st' [SendMessage sentinel] /\
    m_lookup st' = delete (name_user (response 0)) (m_lookup (session (mkCB 0 5 0))) /\
    message st' = sentinel.
Proof.
  apply (sentinel_first_discards_rest (response 0) noteOn (session (mkCB 0 5 0)) 0
           (mkCB 0 5 0)).
  - reflexivity.
  - reflexivity.
  - cbn. lia.
  - reflexivity.
  - vm_compute. split; congruence.
Defined.

Lemma onData_unknown name content st n :
  name_last name = SequenceNumber n ->
  m_lookup st !! name_user name = None ->
  onData name content st = Done st [].
Proof. intros Hlast Hr. unfold onData. by rewrite Hlast, Hr. Qed.

(** While no heartbeat request of [r] arrives, the [minSeqNo] of [r] stays
    above a sequence number it has passed. *)
Lemma steps_min_above r seq ops : forall st st',
  windows_ok st -> Forall (quiet r) ops -> steps small st ops st' ->
  (forall cb, m_lookup st !! r = Some cb -> seq < minSeqNo cb) ->
  forall cb', m_lookup st' !! r = Some cb' -> seq < minSeqNo cb'.
Proof.
  induction ops as [|op ops IH]; intros st st' Hwin Hquiet Hsteps Habove;
    inversion Hsteps as [|? ? st1 out ? ? Hsmall Hstep Hrest]; subst; [done|].
  apply Forall_cons in Hquiet as [Hq Hquiet].
  destruct (step_window _ _ _ _ Hwin Hsmall Hstep) as [Hwin1 Hmono].
  apply (IH st1); [done|done|done|].
  intros cb1 Hcb1. pose proof (step_entry op st st1 out r Hstep) as He.
  destruct (m_lookup st !! r) as [cb|] eqn:Hcb.
  - specialize (Hmono r cb cb1 Hcb Hcb1). specialize (Habove cb eq_refl). lia.
  - rewrite (He Hq) in Hcb1. done.
Qed.

Lemma small_one projname r cb msg :
  maxSeqNo cb < 2 ^ 30 -> small (mkState projname {[ r := cb ]} msg).
Proof.
  intros Hcb r' cb' Hr. cbn in Hr.
  apply lookup_singleton_Some in Hr as [_ <-]. exact Hcb.
Qed.

(** X7: within a session no sequence number is played twice.  Once a
    response with sequence number [seq] has been accepted, then after any
    further operations among which there is no heartbeat-named Interest of
    that remote (nothing else can enter the remote anew), a response of the
    remote with a sequence number up to [seq] (a duplicate, or one of the
    numbers the window skipped) is ignored: state unchanged, nothing sent to
    the device, no Interest expressed.  (The windows are well formed, every
    operation returns and none starts with a sequence number near the end of
    the [int] range.) *)
Theorem accepted_response_not_replayed
    name content name2 content2 st st1 out ops st2 n n2 cb :
  name_last name = SequenceNumber n ->
  name_last name2 = SequenceNumber n2 ->
  name_user name2 = name_user name ->
  windows_ok st -> small st ->
  m_lookup st !! name_user name = Some cb ->
  minSeqNo cb <= int_of_uint64 n <= maxSeqNo cb ->
  onData name content st = Done st1 out ->
  Forall (quiet (name_user name)) ops ->
  steps small st1 ops st2 ->
  int_of_uint64 n2 <= int_of_uint64 n ->
  (length content2 <= 30)%nat ->
  onData name2 content2 st2 = Done st2 [].
Proof.
  intros Hlast Hlast2 Huser Hwin Hsmall Hcb Hseq Hdata Hquiet Hsteps Hdup Hlen2.
  assert (Hwin1 : windows_ok st1).
  { by destruct (step_window (OnData name content) st st1 out Hwin Hsmall Hdata). }
  assert (Habove1 : forall cb1, m_lookup st1 !! name_user name = Some cb1 ->
                      int_of_uint64 n < minSeqNo cb1).
  { pose proof (Hwin _ _ Hcb) as [Hmin _].
    destruct (onData_accepted_cases _ _ _ _ _ _ _ Hlast Hcb Hmin Hseq (Hsmall _ _ Hcb) Hdata)
      as [Ht|Ht]; intros cb1; rewrite Ht.
    - by rewrite lookup_delete_eq.
    - rewrite lookup_insert_eq. intros [= <-]. cbn. lia. }
  pose proof (steps_min_above _ _ _ _ _ Hwin1 Hquiet Hsteps Habove1) as Habove2.
  destruct (m_lookup st2 !! name_user name) as [cb2|] eqn:Hcb2.
  - eapply (onData_dropped _ _ _ n2); [done| |done|].
    + rewrite Huser. exact Hcb2.
    + left. specialize (Habove2 cb2 eq_refl). lia.
  - apply (onData_unknown _ _ _ n2 Hlast2). by rewrite Huser.
Qed.

Lemma accepted_response_not_replayed_witness :
  onData (response 1) noteOff
    (mkState "tmp-proj" {[ "peerA"%string := mkCB 5 10 1 ]} noteOff)
  = Done (mkState "tmp-proj" {[ "peerA"%string := mkCB 5 10 1 ]} noteOff) [].
Proof.
  apply (accepted_response_not_replayed (response 2) noteOn (response 1) noteOff
           (session (mkCB 0 5 0))
           (mkState "tmp-proj" {[ "peerA"%string := mkCB 3 8 0 ]} noteOn)
           (SendMessage noteOn :: requests "peerA" "tmp-proj" 5 3)
           [MonitorTick; OnData (response 4) noteOff]
           (mkState "tmp-proj" {[ "peerA"%string := mkCB 5 10 1 ]} noteOff)
           2 1 (mkCB 0 5 0)).
  - reflexivity.
  - reflexivity.
  - reflexivity.
  - intros r cb Hr. cbn in Hr. apply lookup_singleton_Some in Hr as [_ <-]. cbn. lia.
  - apply small_session. reflexivity.
  - reflexivity.
  - vm_compute. split; congruence.
  - vm_compute. reflexivity.
  - repeat constructor.
  - apply (steps_cons small _ _
             (mkState "tmp-proj" {[ "peerA"%string := mkCB 3 8 1 ]} noteOn) []);
      [apply small_one; reflexivity | vm_compute; reflexivity |].
    eapply steps_cons; [apply small_one; reflexivity | vm_compute; reflexivity |].
    apply steps_nil.
  - vm_compute. congruence.
  - cbn. lia.
Defined.

(** X8: a content shorter than one unit still consumes its sequence
    number.  An accepted response with fewer than three bytes (the empty
    content included) sends nothing to the device, yet the window advances
    and the Interests for the next sequence numbers are expressed as for any
    other response. *)
Theorem short_content_advances_window name content st n cb :
  let seqNo := int_of_uint64 n in
  let r := name_user name in
  let advance := seqNo - minSeqNo cb + 1 in
  name_last name = SequenceNumber n ->
  m_lookup st !! r = Some cb ->
  (length content < 3)%nat ->
  0 <= minSeqNo cb -> minSeqNo cb <= seqNo <= maxSeqNo cb ->
  maxSeqNo cb + advance <= int_max ->
  onData name content st =
    Done (set_lookup st
            (<[r := mkCB (seqNo + 1) (maxSeqNo cb + advance) (inactiveTime cb)]> (m_lookup st)))
         (requests r (m_projName st) (maxSeqNo cb) (Z.to_nat advance)).
Proof.
  intros seqNo r advance Hlast Hcb Hlen Hmin Hwin Hmax.
  assert (Hns : take 3 content <> sentinel).
  { intros Heq. apply (f_equal length) in Heq. rewrite length_take in Heq.
    change (length sentinel) with 3%nat in Heq. lia. }
  destruct (onData_accepted name content st n cb Hlast Hcb) as (st2 & sends & Hplay & _ & ->);
    [lia|done|lia|done|done|done|].
  rewrite Nat.div_small in Hplay by done. cbn in Hplay. by injection Hplay as <- <-.
Qed.

Lemma short_content_advances_window_witness :
  onData (response 0) [] (session (mkCB 0 5 0)) =
    Done (set_lookup (session (mkCB 0 5 0))
            (<["peerA"%string := mkCB 1 6 0]> (m_lookup (session (mkCB 0 5 0)))))
         (requests "peerA" "tmp-proj" 5 1).
Proof.
  apply (short_content_advances_window (response 0) [] (session (mkCB 0 5 0)) 0 (mkCB 0 5 0)).
  - reflexivity.
  - reflexivity.
  - cbn. lia.
  - cbn. lia.
  - vm_compute. split; congruence.
  - vm_compute. congruence.
Defined.

(** *** The width of the window *)

Lemma initial_widths_ok projname msg : widths_ok (initial projname msg).
Proof. intros r cb Hcb. cbn in Hcb. by rewrite lookup_empty in Hcb. Qed.

(** A callback keeps every window as wide as it was. *)
Lemma step_widths op st st' out :
  windows_ok st -> small st -> widths_ok st -> callback op ->
  step op st = Done st' out -> widths_ok st'.
Proof.
  intros Hwin Hsmall Hwidth Hcall Hstep r cb'.
  destruct op as [name|name content|remoteName|]; cbn [step callback] in Hstep, Hcall.
  - destruct (onInterest name st) as [st1 out1] eqn:Hon. injection Hstep as <- <-.
    replace st1 with (onInterest name st).1 by by rewrite Hon.
    destruct (decide (isHeartbeat (name_last name) = true /\ name_proj name = r))
      as [[Hhb <-]|Hq].
    + rewrite (onInterest_self _ _ Hhb).
      destruct (m_lookup st !! name_proj name) as [cb|] eqn:Hcb; intros [= <-]; cbn.
      * by apply (Hwidth _ _ Hcb).
      * unfold PREWARM_AMOUNT. lia.
    + rewrite onInterest_other by tauto. apply Hwidth.
  - destruct (onData_window _ _ _ _ _ r Hwin Hsmall Hstep)
      as [->|[->|(cb & seq & Hcb & Hseq & ->)]]; [apply Hwidth|done|].
    intros [= <-]. cbn. specialize (Hwidth _ _ Hcb). lia.
  - done.
  - injection Hstep as <- <-. rewrite controlBlockMonitoring_lookup.
    destruct (m_lookup st !! r) as [cb|] eqn:Hcb; [|done].
    destruct (expired _); [done|]. intros [= <-]. cbn. by apply (Hwidth _ _ Hcb).
Qed.

Lemma steps_widths ops : forall st st',
  windows_ok st -> widths_ok st -> Forall callback ops ->
  steps small st ops st' -> widths_ok st'.
Proof.
  induction ops as [|op ops IH]; intros st st' Hwin Hwidth Hcall Hsteps;
    inversion Hsteps as [|? ? st1 out ? ? Hsmall Hstep Hrest]; subst; [done|].
  apply Forall_cons in Hcall as [Hop Hcall].
  apply (IH st1); [|by eapply step_widths|done|done].
  by destruct (step_window _ _ _ _ Hwin Hsmall Hstep).
Qed.

(** X9: the number of outstanding requests is constant.  Along every
    sequence of callbacks from the initial state (handshakes, heartbeats,
    responses accepted or not, rounds of the monitoring thread), every
    control block in the table has [maxSeqNo - minSeqNo = PREWARM_AMOUNT]: a
    response that advances [minSeqNo] by [advance] is always followed by
    exactly [advance] new requests.  (Every callback returns and none starts
    with a sequence number near the end of the [int] range.) *)
Theorem window_width_constant projname msg ops st :
  steps small (initial projname msg) ops st ->
  Forall callback ops ->
  widths_ok st.
Proof.
  intros Hsteps Hcall.
  exact (steps_widths _ _ _ (initial_windows_ok projname msg)
           (initial_widths_ok projname msg) Hcall Hsteps).
Qed.

Lemma window_width_constant_witness :
  widths_ok (mkState "tmp-proj" {[ "peerA"%string := mkCB 3 8 0 ]} noteOn).
Proof.
  apply (window_width_constant "tmp-proj" [zero; zero; zero]
           [OnInterest hello; OnData (response 2) noteOn]
           (mkState "tmp-proj" {[ "peerA"%string := mkCB 3 8 0 ]} noteOn)).
  - eapply steps_cons; [apply small_initial | vm_compute; reflexivity |].
    eapply steps_cons; [apply small_session; reflexivity | vm_compute; reflexivity |].
    apply steps_nil.
  - repeat constructor.
Defined.

(** *** Rounds of the monitoring thread *)

Lemma monitorRounds_S k st :
  monitorRounds (S k) st = controlBlockMonitoring (monitorRounds k st).
Proof. reflexivity. Qed.

(** While the counter stays within [MAX_INACTIVE_TIME] the rounds only
    count. *)
Lemma monitorRounds_survive k : forall st r cb,
  m_lookup st !! r = Some cb ->
  0 <= inactiveTime cb -> inactiveTime cb + Z.of_nat k <= MAX_INACTIVE_TIME ->
  m_lookup (monitorRounds k st) !! r =
    Some (mkCB (minSeqNo cb) (maxSeqNo cb) (inactiveTime cb + Z.of_nat k)).
Proof.
  unfold MAX_INACTIVE_TIME.
  induction k as [|k IH]; intros st r cb Hcb Hlo Hhi.
  - cbn. rewrite Z.add_0_r, Hcb. by destruct cb.
  - rewrite monitorRounds_S, controlBlockMonitoring_lookup, (IH st r cb Hcb) by lia.
    unfold expired, tickBlock, MAX_INACTIVE_TIME. cbn [inactiveTime minSeqNo maxSeqNo].
    destruct int_bounds. rewrite int_add_id by lia.
    destruct (Z.ltb_spec 5 (inactiveTime cb + Z.of_nat k + 1)); [lia|].
    do 2 f_equal. lia.
Qed.

(** X10: the inactivity threshold is exact.  A control block whose counter
    is [t] (0 after a handshake or heartbeat) stays in the table, with its
    window untouched and its counter counting the rounds, for the next
    [MAX_INACTIVE_TIME - t] rounds of the monitoring thread, and the round
    after these erases it. *)
Theorem monitoring_threshold_exact st r cb :
  m_lookup st !! r = Some cb ->
  0 <= inactiveTime cb <= MAX_INACTIVE_TIME ->
  (forall k : nat,
     inactiveTime cb + Z.of_nat k <= MAX_INACTIVE_TIME ->
     m_lookup (monitorRounds k st) !! r =
       Some (mkCB (minSeqNo cb) (maxSeqNo cb) (inactiveTime cb + Z.of_nat k))) /\
  m_lookup (monitorRounds (S (Z.to_nat (MAX_INACTIVE_TIME - inactiveTime cb))) st) !! r = None.
Proof.
  intros Hcb [Hlo Hhi]. split.
  - intros k Hk. by apply monitorRounds_survive.
  - unfold MAX_INACTIVE_TIME in *.
    rewrite monitorRounds_S, controlBlockMonitoring_lookup.
    rewrite (monitorRounds_survive _ st r cb Hcb) by (unfold MAX_INACTIVE_TIME; lia).
    unfold expired, tickBlock, MAX_INACTIVE_TIME. cbn [inactiveTime].
    destruct int_bounds. rewrite int_add_id by lia.
    by destruct (Z.ltb_spec 5 (inactiveTime cb + Z.of_nat (Z.to_nat (5 - inactiveTime cb)) + 1));
      [|lia].
Qed.

Lemma monitoring_threshold_exact_witness :
  (forall k : nat,
     inactiveTime (mkCB 0 5 0) + Z.of_nat k <= MAX_INACTIVE_TIME ->
     m_lookup (monitorRounds k (session (mkCB 0 5 0))) !! "peerA"%string =
       Some (mkCB 0 5 (0 + Z.of_nat k))) /\
  m_lookup (monitorRounds 6 (session (mkCB 0 5 0))) !! "peerA"%string = None.
Proof.
  apply (monitoring_threshold_exact (session (mkCB 0 5 0)) "peerA" (mkCB 0 5 0)).
  - reflexivity.
  - vm_compute. split; congruence.
Defined.

(** An accepted response that starts with the sentinel erases the entry of
    its remote, when the [message] vector has room for a unit. *)
Lemma onData_shutdown_erases name rest st n cb :
  name_last name = SequenceNumber n ->
  m_lookup st !! name_user name = Some cb ->
  (length (sentinel ++ rest) <= 30)%nat ->
  (3 <= length (message st))%nat ->
  minSeqNo cb <= int_of_uint64 n <= maxSeqNo cb ->
  exists st' out,
    onData name (sentinel ++ rest) st = Done st' out /\
    m_lookup st' = delete (name_user name) (m_lookup st).
Proof.
  intros Hlast Hcb Hlen Hmsg Hwin.
  rewrite (onData_checks _ _ _ _ _ Hlast Hcb Hlen). cbn zeta.
  destruct (Z.ltb_spec (int_of_uint64 n) (minSeqNo cb)); [lia|].
  destruct (Z.ltb_spec (maxSeqNo cb) (int_of_uint64 n)); [lia|].
  assert (Hn : exists k, (length (sentinel ++ rest) / 3)%nat = S k).
  { exists (length rest / 3)%nat. rewrite length_app.
    change (length sentinel) with (1 * 3)%nat. by rewrite Nat.div_add_l. }
  destruct Hn as [k ->].
  match goal with |- context [playLoop (S k) 0 _ ?r ?s] =>
    destruct (playLoop_shutdown k 0 (sentinel ++ rest) r s eq_refl Hmsg)
      as (st' & out & -> & Ht & _) end.
  exists st', out. split; [done|]. cbn [m_lookup set_lookup] in Ht.
  by rewrite Ht, delete_insert_eq.
Qed.

(** X22: a response one past the window is answered by a wasted request.
    When a response with [seq = maxSeqNo] is accepted (a sequence number no
    Interest was expressed for), the first Interest the handler expresses
    afterwards is for that same sequence number, and the answer to it is
    then rejected as stale: state unchanged, nothing sent to the device.
    (The contents fit the buffer, the first does not start with the
    sentinel, the [message] vector has room for the three bytes of a unit
    and no counter overflows.) *)
Theorem boundary_response_requested_again name content content2 st n cb :
  let r := name_user name in
  name_last name = SequenceNumber n ->
  m_lookup st !! r = Some cb ->
  (length content <= 30)%nat -> (length content2 <= 30)%nat ->
  take 3 content <> sentinel ->
  (3 <= length (message st))%nat ->
  0 <= minSeqNo cb <= maxSeqNo cb ->
  int_of_uint64 n = maxSeqNo cb ->
  maxSeqNo cb + (maxSeqNo cb - minSeqNo cb + 1) <= int_max ->
  exists st' sends,
    onData name content st =
      Done st' (sends ++ request r (m_projName st) (maxSeqNo cb)
                  :: requests r (m_projName st) (maxSeqNo cb + 1)
                       (Z.to_nat (maxSeqNo cb - minSeqNo cb))) /\
    (forall name', ExpressInterest name' ∉ sends) /\
    onData name content2 st' = Done st' [].
Proof.
  intros r Hlast Hcb Hlen Hlen2 Hns Hmsg Hwin Hseq Hmax.
  destruct (onData_accepted name content st n cb Hlast Hcb Hlen Hns (fun _ => Hmsg))
    as (st2 & sends & _ & Hsends & Hdone); [lia|lia|lia|].
  rewrite Hseq in Hdone.
  replace (Z.to_nat (maxSeqNo cb - minSeqNo cb + 1))
    with (S (Z.to_nat (maxSeqNo cb - minSeqNo cb))) in Hdone by lia.
  rewrite requests_S in Hdone.
  eexists _, sends. split; [exact Hdone|]. split; [done|].
  eapply (onData_dropped _ _ _ n); [done| |done|].
  - cbn [m_lookup set_lookup]. apply lookup_insert_eq.
  - left. cbn. lia.
Qed.

Lemma boundary_response_requested_again_witness :
  exists st' sends,
    onData (response 5) noteOn (session (mkCB 0 5 0)) =
      Done st' (sends ++ request "peerA" "tmp-proj" 5
                  :: requests "peerA" "tmp-proj" (5 + 1) (Z.to_nat (5 - 0))) /\
    (forall name', ExpressInterest name' ∉ sends) /\
    onData (response 5) noteOff st' = Done st' [].
Proof.
  apply (boundary_response_requested_again (response 5) noteOn noteOff
           (session (mkCB 0 5 0)) 5 (mkCB 0 5 0)).
  - reflexivity.
  - reflexivity.
  - cbn. lia.
  - cbn. lia.
  - discriminate.
  - cbn. lia.
  - cbn. lia.
  - reflexivity.
  - vm_compute. congruence.
Defined.

End PlaybackExtras.

(** * Further properties of the producer *)

Module ControllerExtras.
Import Controller ControllerFacts.

Implicit Types (st : State) (msg : MIDIMessage) (name : Name).

(** *** Incoming Interests *)

(** X11: a retransmitted or out-of-order Interest is not queued.  On a
    connected controller an Interest whose sequence number is at least
    [m_maxSeqNo] is appended to the Interest queue and moves [m_maxSeqNo]
    past it; after that an Interest with the same or a smaller sequence
    number leaves the controller unchanged. *)
Theorem duplicate_interest_dropped name name2 st n n2 :
  m_connGood st = true ->
  name_last name = SequenceNumber n ->
  name_last name2 = SequenceNumber n2 ->
  m_maxSeqNo st <= int_of_uint64 n < int_max ->
  int_of_uint64 n2 <= int_of_uint64 n ->
  exists st1,
    onInterest name st = Some st1 /\
    m_interestQueue st1 = m_interestQueue st ++ [name] /\
    m_maxSeqNo st1 = int_of_uint64 n + 1 /\
    onInterest name2 st1 = Some st1.
Proof.
  intros Hconn Hlast Hlast2 Hseq Hdup. unfold onInterest at 1.
  rewrite Hconn, Hlast. cbn [negb toSequenceNumber].
  destruct (Z.leb_spec (m_maxSeqNo st) (int_of_uint64 n)); [|lia].
  eexists. split; [reflexivity|]. cbn [m_interestQueue m_maxSeqNo].
  pose proof (wrap_range (Z.of_N n)) as Hr. fold (int_of_uint64 n) in Hr.
  rewrite int_add_id by lia. split; [done|]. split; [done|].
  unfold onInterest. cbn [m_connGood m_maxSeqNo]. rewrite Hlast2.
  cbn [negb toSequenceNumber].
  by destruct (Z.leb_spec (int_of_uint64 n + 1) (int_of_uint64 n2)); [lia|].
Qed.

Lemma duplicate_interest_dropped_witness :
  exists st1,
    onInterest (pull 2) (controller true 0 [] []) = Some st1 /\
    m_interestQueue st1 = m_interestQueue (controller true 0 [] []) ++ [pull 2] /\
    m_maxSeqNo st1 = int_of_uint64 2 + 1 /\
    onInterest (pull 1) st1 = Some st1.
Proof.
  apply (duplicate_interest_dropped (pull 2) (pull 1) (controller true 0 [] []) 2 1).
  - reflexivity.
  - reflexivity.
  - reflexivity.
  - vm_compute. split; congruence.
  - vm_compute. congruence.
Defined.

Lemma queue_ok_same st st' :
  m_interestQueue st' = m_interestQueue st -> m_maxSeqNo st' = m_maxSeqNo st ->
  queue_ok st -> queue_ok st'.
Proof. unfold queue_ok. by intros -> ->. Qed.

Lemma queue_ok_nil st : m_interestQueue st = [] -> queue_ok st.
Proof. unfold queue_ok. intros ->. split; constructor. Qed.

Lemma queue_ok_tail st st' name :
  m_interestQueue st = name :: m_interestQueue st' -> m_maxSeqNo st' = m_maxSeqNo st ->
  queue_ok st -> queue_ok st'.
Proof.
  unfold queue_ok. intros -> ->. cbn [fmap list_fmap].
  intros [[_ Hs]%StronglySorted_cons [_ Hf]%Forall_cons]. done.
Qed.

(** One operation keeps the Interest queue in order. *)
Lemma step_queue_ok op st st' out :
  queue_ok st -> in_range op -> step op st = Some (st', out) -> queue_ok st'.
Proof.
  intros Hok Hrange. destruct op as [name|name|msg| |]; cbn [step in_range] in *.
  - unfold onInterest. destruct (m_connGood st); cbn [negb]; [|by intros [= <- _]].
    unfold seqNoOf in Hrange.
    destruct (name_last name) as [uri|n] eqn:Hlast; cbn [toSequenceNumber]; [done|].
    destruct (Z.leb_spec (m_maxSeqNo st) (int_of_uint64 n)); [|by intros [= <- _]].
    intros [= <- _]. destruct Hok as [Hs Hf].
    pose proof (wrap_range (Z.of_N n)) as Hr. fold (int_of_uint64 n) in Hr.
    unfold queue_ok. cbn [m_interestQueue m_maxSeqNo].
    rewrite int_add_id by lia. rewrite fmap_app. cbn [fmap list_fmap].
    assert (Hn : seqNoOf name = int_of_uint64 n) by (unfold seqNoOf; by rewrite Hlast).
    rewrite Hn. split.
    + apply StronglySorted_app_2; [|done|repeat constructor].
      intros x1 x2 Hx1 ->%list_elem_of_singleton.
      rewrite Forall_forall in Hf. specialize (Hf _ Hx1). lia.
    + apply Forall_app. split; [|repeat constructor; lia].
      eapply Forall_impl; [exact Hf|]. cbn. intros; lia.
  - intros [= <- _]. unfold onData.
    destruct (negb _); [done|]. destruct (m_connGood st).
    + by apply (queue_ok_same st).
    + by apply queue_ok_nil.
  - intros [= <- _]. by apply (queue_ok_same st).
  - unfold replyInterest.
    destruct (m_connGood st); cbn [negb].
    + destruct (m_inputQueue st) as [|msg inputs]; [by intros [= <- _]|].
      destruct (m_interestQueue st) as [|name interests] eqn:Hq; [by intros [= <- _]|].
      destruct (fillBuf _ _ _) as [[inputs' buf] size]. intros [= <- _].
      by apply (queue_ok_tail st _ name).
    + cbn. intros [= <- _]. by apply queue_ok_nil.
  - intros [= <- _]. by apply (queue_ok_same st).
Qed.

(** X12: the pending Interests stay ordered.  Along every sequence of
    operations of the controller (Interests and Data arriving, messages
    enqueued, rounds of the sender and of the heartbeat thread) the Interest
    queue holds strictly increasing sequence numbers, all of them below
    [m_maxSeqNo].  (No Interest carries the last [int] as sequence
    number.) *)
Theorem interest_queue_ordered ops : forall st st' out,
  queue_ok st -> Forall in_range ops -> run ops st = Some (st', out) -> queue_ok st'.
Proof.
  induction ops as [|op ops IH]; intros st st' out Hok Hrange Hrun; cbn [run] in Hrun.
  - by injection Hrun as <- _.
  - apply Forall_cons in Hrange as [Hop Hrange].
    destruct (step op st) as [[st1 out1]|] eqn:Hstep; [|done].
    destruct (run ops st1) as [[st2 out2]|] eqn:Hrest; [|done].
    injection Hrun as <- _.
    eapply IH; [|exact Hrange|exact Hrest]. by eapply step_queue_ok.
Qed.

Lemma interest_queue_ordered_witness :
  queue_ok (mkState ("peerA"%string, "tmp-proj"%string) true [] [pull 0; pull 2]
              (replicate MAX_BATCH noMsg) 3 0 0).
Proof.
  apply (interest_queue_ordered [OnInterest (pull 0); OnInterest (pull 2); OnInterest (pull 1)]
           (controller true 0 [] [])
           (mkState ("peerA"%string, "tmp-proj"%string) true [] [pull 0; pull 2]
              (replicate MAX_BATCH noMsg) 3 0 0) []).
  - apply queue_ok_nil. reflexivity.
  - repeat constructor; vm_compute; congruence.
  - vm_compute. reflexivity.
Defined.

(** *** The heartbeat *)

Lemma probes_S k st : probes (S k) st = (sendHeartbeat (probes k st)).1.
Proof. reflexivity. Qed.

Lemma probes_from_zero k : forall st,
  m_hbCount st = 0 -> m_connGood st = true -> Z.of_nat k <= int_max ->
  m_hbCount (probes k st) = Z.of_nat k /\
  m_connGood (probes k st) = bool_decide (k <= 3)%nat.
Proof.
  induction k as [|k IH]; intros st Hhb Hconn Hk.
  - cbn. by rewrite Hhb, Hconn.
  - destruct (IH st Hhb Hconn) as [Hcount Hgood]; [lia|].
    rewrite probes_S. cbn [sendHeartbeat fst m_hbCount m_connGood].
    rewrite Hcount, Hgood. destruct int_bounds. rewrite int_add_id by lia.
    split; [lia|]. unfold MAX_HEARTBEAT_PROBE.
    destruct (Z.ltb_spec 3 (Z.of_nat k + 1)); repeat case_bool_decide; try done; lia.
Qed.

(** X13: the connection survives exactly [MAX_HEARTBEAT_PROBE] unanswered
    probes.  After a heartbeat Data has been handled, the controller counts
    its probes from zero: it is still connected after [k <= 3] rounds of the
    heartbeat thread in a row, and disconnected after any larger number of
    rounds. *)
Theorem connection_survives_three_probes name st k :
  isHeartbeat (name_last name) = true ->
  Z.of_nat k <= int_max ->
  m_hbCount (probes k (onData name st)) = Z.of_nat k /\
  m_connGood (probes k (onData name st)) = bool_decide (k <= 3)%nat.
Proof.
  intros Hhb Hk. apply probes_from_zero; [| |done].
  - unfold onData. rewrite Hhb. cbn. by destruct (m_connGood st).
  - unfold onData. rewrite Hhb. cbn. by destruct (m_connGood st).
Qed.

Lemma connection_survives_three_probes_witness :
  m_hbCount (probes 4 (onData (mkName "peerA" "tmp-proj" heartbeat)
                         (controller false 7 [] []))) = Z.of_nat 4 /\
  m_connGood (probes 4 (onData (mkName "peerA" "tmp-proj" heartbeat)
                          (controller false 7 [] []))) = bool_decide (4 <= 3)%nat.
Proof.
  apply (connection_survives_three_probes (mkName "peerA" "tmp-proj" heartbeat)
           (controller false 7 [] []) 4).
  - reflexivity.
  - vm_compute. congruence.
Defined.

(** *** The sender *)

Lemma contents_app out1 out2 : contents (out1 ++ out2) = contents out1 ++ contents out2.
Proof. unfold contents. by rewrite fmap_app, concat_app. Qed.

(** A connected controller with a message and an Interest queued answers
    the first Interest with the first [MAX_BATCH] messages. *)
Lemma replyInterest_answers st msg inputs name interests :
  length (midiBuf st) = MAX_BATCH ->
  m_connGood st = true ->
  m_inputQueue st = msg :: inputs ->
  m_interestQueue st = name :: interests ->
  exists buf,
    length buf = MAX_BATCH /\
    replyInterest st =
      (set_queues (set_midiBuf st buf) (drop MAX_BATCH (msg :: inputs)) interests,
       [PutData name (concat (bytes <$> take MAX_BATCH (msg :: inputs)))]).
Proof.
  intros Hbuf Hconn Hin Hint. unfold replyInterest. rewrite Hconn. cbn [negb].
  rewrite Hin, Hint.
  destruct (fillBuf_spec (msg :: inputs) (midiBuf st) 0 Hbuf) as (buf & Hfill & Hlen & Htake);
    [lia|].
  rewrite Nat.sub_0_r in Hfill, Htake. cbn [Nat.add take app] in Hfill, Htake.
  exists buf. split; [done|]. by rewrite Hfill, Htake.
Qed.

(** One call on a connected controller loses and reorders nothing. *)
Lemma replyInterest_conserves st :
  length (midiBuf st) = MAX_BATCH -> m_connGood st = true ->
  contents (replyInterest st).2 ++ concat (bytes <$> m_inputQueue (replyInterest st).1) =
    concat (bytes <$> m_inputQueue st) /\
  length (midiBuf (replyInterest st).1) = MAX_BATCH /\
  m_connGood (replyInterest st).1 = true.
Proof.
  intros Hbuf Hconn.
  destruct (m_inputQueue st) as [|msg inputs] eqn:Hin;
    [|destruct (m_interestQueue st) as [|name interests] eqn:Hint].
  - unfold replyInterest. rewrite Hconn. cbn [negb]. rewrite Hin. cbn. by rewrite Hin.
  - unfold replyInterest. rewrite Hconn. cbn [negb]. rewrite Hin, Hint. cbn. by rewrite Hin.
  - destruct (replyInterest_answers _ _ _ _ _ Hbuf Hconn Hin Hint) as (buf & Hlen & ->).
    cbn [fst snd m_inputQueue m_connGood midiBuf set_queues set_midiBuf].
    split; [|done]. unfold contents. cbn [fmap list_fmap concat]. rewrite app_nil_r.
    by rewrite <- concat_app, <- fmap_app, take_drop.
Qed.

(** X14: the sender loses, duplicates and reorders nothing.  On a connected
    controller, after any number of rounds of [output_sender] (and nothing
    else running in between), the bytes of the Data packets put so far,
    followed by the bytes of the messages still queued, are the bytes of the
    messages that were queued at the start, in the same order. *)
Theorem output_sender_conserves n : forall st,
  length (midiBuf st) = MAX_BATCH -> m_connGood st = true ->
  contents (output_sender n st).2 ++ concat (bytes <$> m_inputQueue (output_sender n st).1) =
    concat (bytes <$> m_inputQueue st).
Proof.
  induction n as [|n IH]; intros st Hbuf Hconn; [done|].
  cbn [output_sender].
  destruct (replyInterest_conserves st Hbuf Hconn) as (Hone & Hbuf1 & Hconn1).
  destruct (replyInterest st) as [st1 out1]. cbn [fst snd] in *.
  specialize (IH st1 Hbuf1 Hconn1).
  destruct (output_sender n st1) as [st2 out2]. cbn [fst snd] in *.
  by rewrite contents_app, <- app_assoc, IH.
Qed.

Lemma output_sender_conserves_witness :
  contents (output_sender 3 (controller true 0 (replicate 12 noteOn) [pull 0; pull 1])).2
    ++ concat (bytes <$> m_inputQueue
                 (output_sender 3 (controller true 0 (replicate 12 noteOn) [pull 0; pull 1])).1)
  = concat (bytes <$> m_inputQueue (controller true 0 (replicate 12 noteOn) [pull 0; pull 1])).
Proof.
  apply (output_sender_conserves 3 (controller true 0 (replicate 12 noteOn) [pull 0; pull 1])).
  - reflexivity.
  - reflexivity.
Defined.

(** X15: what the producer sends fits the consumer.  The content of every
    Data packet [replyInterest] puts has at most 30 bytes, the size of the
    buffer [PlaybackModule::onData] copies it into: whatever the state of
    the consumer, handling that packet does not overrun the buffer. *)
Theorem batch_fits_consumer_buffer st name content pst :
  length (midiBuf st) = MAX_BATCH ->
  PutData name content ∈ (replyInterest st).2 ->
  (length content <= 30)%nat /\
  PlaybackModule.onData name content pst <> Overrun.
Proof.
  intros Hbuf Hput.
  assert (Hlen : (length content <= 30)%nat).
  { destruct (m_connGood st) eqn:Hconn;
      [|by rewrite (replyInterest_disconnected _ Hconn) in Hput; apply elem_of_nil in Hput].
    destruct (m_inputQueue st) as [|msg inputs] eqn:Hin;
      [|destruct (m_interestQueue st) as [|name' interests] eqn:Hint].
    - unfold replyInterest in Hput. rewrite Hconn in Hput. cbn [negb] in Hput.
      rewrite Hin in Hput. by apply elem_of_nil in Hput.
    - unfold replyInterest in Hput. rewrite Hconn in Hput. cbn [negb] in Hput.
      rewrite Hin, Hint in Hput. by apply elem_of_nil in Hput.
    - destruct (replyInterest_answers _ _ _ _ _ Hbuf Hconn Hin Hint) as (buf & _ & Hreply).
      assert (Hc : content = concat (bytes <$> take MAX_BATCH (msg :: inputs))).
      { rewrite Hreply in Hput. apply list_elem_of_singleton in Hput. congruence. }
      rewrite Hc, length_bytes, length_take. unfold MAX_BATCH. lia. }
  split; [done|]. unfold PlaybackModule.onData.
  destruct (isHeartbeat _); [done|].
  destruct (toSequenceNumber _); [|done].
  destruct (PlaybackModule.m_lookup pst !! name_user name); [|done].
  destruct (PlaybackFacts.dataSize_fits content Hlen) as (-> & _ & _).
  destruct (_ <? _); [done|]. destruct (_ <? _); [done|].
  destruct (PlaybackModule.playLoop _ _ _ _ _) as [[[[] ?] ?]|]; [done| |done].
  by destruct (PlaybackModule.requestLoop _ _ _).
Qed.

Lemma batch_fits_consumer_buffer_witness :
  (length (concat (bytes <$> replicate 10 noteOn)) <= 30)%nat /\
  PlaybackModule.onData (pull 0) (concat (bytes <$> replicate 10 noteOn))
    (PlaybackModule.session (PlaybackModule.mkCB 0 5 0)) <> Overrun.
Proof.
  apply (batch_fits_consumer_buffer
           (controller true 0 (replicate 12 noteOn) [pull 0; pull 1]) (pull 0)
           (concat (bytes <$> replicate 10 noteOn))
           (PlaybackModule.session (PlaybackModule.mkCB 0 5 0))).
  - reflexivity.
  - vm_compute. apply list_elem_of_singleton. reflexivity.
Defined.

(** X16: the all-zero message ends the session at the other end.  When the
    all-zero message is at the front of the input queue of a connected
    controller that has an Interest pending, [replyInterest] answers the
    Interest with a content that starts with [{0,0,0}], followed by the
    bytes of up to nine further messages; a consumer that handles this Data
    for a sequence number of its window (its [message] vector having room
    for a unit) erases the control block of the remote. *)
Theorem zero_message_tears_down st inputs name interests pst n cb :
  m_connGood st = true ->
  m_inputQueue st = noMsg :: inputs ->
  m_interestQueue st = name :: interests ->
  length (midiBuf st) = MAX_BATCH ->
  name_last name = SequenceNumber n ->
  PlaybackModule.m_lookup pst !! name_user name = Some cb ->
  (3 <= length (PlaybackModule.message pst))%nat ->
  PlaybackModule.minSeqNo cb <= int_of_uint64 n <= PlaybackModule.maxSeqNo cb ->
  let content := [zero; zero; zero] ++ concat (bytes <$> take 9 inputs) in
  exists pst' out,
    (replyInterest st).2 = [PutData name content] /\
    PlaybackModule.onData name content pst = Done pst' out /\
    PlaybackModule.m_lookup pst' !! name_user name = None.
Proof.
  intros Hconn Hin Hint Hbuf Hlast Hcb Hmsg Hwin content.
  destruct (PlaybackExtras.onData_shutdown_erases name (concat (bytes <$> take 9 inputs))
              pst n cb Hlast Hcb)
    as (pst' & out & Hdata & Ht); [|done|done|].
  { rewrite length_app, length_bytes, length_take.
    change (length PlaybackModule.sentinel) with 3%nat. lia. }
  exists pst', out. split; [|split].
  - by destruct (replyInterest_answers st noMsg inputs name interests Hbuf Hconn Hin Hint)
      as (buf & _ & ->).
  - exact Hdata.
  - rewrite Ht. apply lookup_delete_eq.
Qed.

Lemma zero_message_tears_down_witness :
  exists pst' out,
    (replyInterest (controller true 0 [noMsg; noteOn] [pull 0])).2
      = [PutData (pull 0) ([zero; zero; zero] ++ concat (bytes <$> take 9 [noteOn]))] /\
    PlaybackModule.onData (pull 0) ([zero; zero; zero] ++ concat (bytes <$> take 9 [noteOn]))
      (PlaybackModule.session (PlaybackModule.mkCB 0 5 0)) = Done pst' out /\
    PlaybackModule.m_lookup pst' !! name_user (pull 0) = None.
Proof.
  apply (zero_message_tears_down (controller true 0 [noMsg; noteOn] [pull 0]) [noteOn]
           (pull 0) [] (PlaybackModule.session (PlaybackModule.mkCB 0 5 0)) 0
           (PlaybackModule.mkCB 0 5 0)).
  - reflexivity.
  - reflexivity.
  - reflexivity.
  - reflexivity.
  - reflexivity.
  - reflexivity.
  - cbn. lia.
  - vm_compute. split; congruence.
Defined.

(** *** The device thread *)

(** X17: a zero byte cuts a device message short.  [midiLoopNoBLock] passes
    the first three bytes of a device message to [addInput] as a C string:
    the bytes after the first zero byte are enqueued as zero, so a message
    whose second byte is zero loses its third byte; without a zero among the
    three bytes the conversion reads past the array; and a message of fewer
    than three bytes is not enqueued. *)
Theorem device_message_cut_at_zero a b c rest st :
  a <> zero -> b <> zero ->
  midiLoopNoBLock (a :: zero :: c :: rest) st = Some (addInput (mkMsg a zero zero) st) /\
  midiLoopNoBLock (a :: b :: zero :: rest) st = Some (addInput (mkMsg a b zero) st) /\
  (c <> zero -> midiLoopNoBLock (a :: b :: c :: rest) st = None) /\
  midiLoopNoBLock [a; b] st = Some st.
Proof.
  intros Ha Hb.
  assert (Hne : forall x, x <> zero -> Byte.eqb x zero = false).
  { intros x Hx. destruct (Byte.eqb x zero) eqn:E; [|done].
    by apply Byte.byte_dec_bl in E. }
  unfold midiLoopNoBLock. cbn [length Nat.leb take c_str].
  rewrite (Hne a Ha). cbn. rewrite (Hne b Hb). cbn.
  repeat split. intros Hc. by rewrite (Hne c Hc).
Qed.

Lemma device_message_cut_at_zero_witness :
  midiLoopNoBLock (x90 :: zero :: x5a :: []) (controller true 0 [] [])
    = Some (addInput (mkMsg x90 zero zero) (controller true 0 [] [])) /\
  midiLoopNoBLock (x90 :: x40 :: zero :: []) (controller true 0 [] [])
    = Some (addInput (mkMsg x90 x40 zero) (controller true 0 [] [])) /\
  (x5a <> zero ->
   midiLoopNoBLock (x90 :: x40 :: x5a :: []) (controller true 0 [] []) = None) /\
  midiLoopNoBLock [x90; x40] (controller true 0 [] []) = Some (controller true 0 [] []).
Proof.
  apply (device_message_cut_at_zero x90 x40 x5a [] (controller true 0 [] [])).
  - discriminate.
  - discriminate.
Defined.

(** *** While the connection is down *)

Lemma step_disconnected op st st' out :
  m_connGood st = false -> silent op -> step op st = Some (st', out) ->
  m_connGood st' = false /\ Forall (fun e => isPutData e = false) out.
Proof.
  intros Hoff Hsilent. destruct op as [name|name|msg| |]; cbn [step silent] in *.
  - unfold onInterest. rewrite Hoff. cbn. by intros [= <- <-].
  - intros [= <- <-]. unfold onData. by rewrite Hsilent.
  - by intros [= <- <-].
  - rewrite (replyInterest_disconnected _ Hoff). by intros [= <- <-].
  - intros [= <- <-]. cbn. rewrite Hoff, andb_false_r. split; [done|]. by repeat constructor.
Qed.

(** X21: nothing is sent while the connection is down, and nothing queued
    meanwhile is sent later.  From a disconnected controller, along every
    sequence of operations without a heartbeat Data, the controller stays
    disconnected and puts no Data packet; and the heartbeat Data that then
    sets the connection up leaves both queues empty. *)
Theorem disconnected_sends_nothing ops : forall st st' out name,
  m_connGood st = false -> Forall silent ops -> run ops st = Some (st', out) ->
  isHeartbeat (name_last name) = true ->
  m_connGood st' = false /\
  Forall (fun e => isPutData e = false) out /\
  m_connGood (onData name st') = true /\
  m_inputQueue (onData name st') = [] /\
  m_interestQueue (onData name st') = [].
Proof.
  induction ops as [|op ops IH]; intros st st' out name Hoff Hsilent Hrun Hhb;
    cbn [run] in Hrun.
  - injection Hrun as <- <-. unfold onData. rewrite Hhb, Hoff. by cbn.
  - apply Forall_cons in Hsilent as [Hop Hsilent].
    destruct (step op st) as [[st1 out1]|] eqn:Hstep; [|done].
    destruct (run ops st1) as [[st2 out2]|] eqn:Hrest; [|done].
    injection Hrun as <- <-.
    destruct (step_disconnected _ _ _ _ Hoff Hop Hstep) as [Hoff1 Hout1].
    destruct (IH _ _ _ name Hoff1 Hsilent Hrest Hhb) as (? & Hout2 & ? & ? & ?).
    repeat split; try done. by apply Forall_app.
Qed.

Lemma disconnected_sends_nothing_witness :
  m_connGood (mkState ("peerA"%string, "tmp-proj"%string) false [] []
                (replicate MAX_BATCH noMsg) 0 5 1) = false /\
  Forall (fun e => isPutData e = false)
    [ExpressInterest (mkName "peerA" "tmp-proj" heartbeat)] /\
  m_connGood (onData (mkName "peerA" "tmp-proj" heartbeat)
                (mkState ("peerA"%string, "tmp-proj"%string) false [] []
                   (replicate MAX_BATCH noMsg) 0 5 1)) = true /\
  m_inputQueue (onData (mkName "peerA" "tmp-proj" heartbeat)
                  (mkState ("peerA"%string, "tmp-proj"%string) false [] []
                     (replicate MAX_BATCH noMsg) 0 5 1)) = [] /\
  m_interestQueue (onData (mkName "peerA" "tmp-proj" heartbeat)
                     (mkState ("peerA"%string, "tmp-proj"%string) false [] []
                        (replicate MAX_BATCH noMsg) 0 5 1)) = [].
Proof.
  apply (disconnected_sends_nothing
           [AddInput noteOn; OnInterest (pull 0); SendHeartbeat; ReplyInterest]
           (controller false 4 [] [])
           (mkState ("peerA"%string, "tmp-proj"%string) false [] []
              (replicate MAX_BATCH noMsg) 0 5 1)
           [ExpressInterest (mkName "peerA" "tmp-proj" heartbeat)]
           (mkName "peerA" "tmp-proj" heartbeat)).
  - reflexivity.
  - repeat constructor.
  - vm_compute. reflexivity.
  - reflexivity.
Defined.

End ControllerExtras.

(** * Properties of the first consumer *)

Module NetworkPlaybackFacts.
Import NetworkPlayback.

Implicit Types (base iname : Prefix) (name : Name) (m : gmap string Z).

(** The Interest [requestNext] expresses for sequence number [seq]. *)
Lemma requestNext_expresses base r m seq :
  m !! r = Some seq ->
  requestNext base r m =
    [Express (mkName (prefix_user base) (prefix_proj base)
                (SequenceNumber (uint64_of_int seq)))].
Proof. unfold requestNext. by intros ->. Qed.

(** X18: a connection is accepted once.  The request of an unknown remote
    enters it in the table with sequence number 0, is answered with
    ACCEPTED under its own name and is followed by one Interest, for
    sequence number 0 under the base name of the module; a further request
    of that remote is dropped without an answer and without a change. *)
Theorem connection_accepted_once base iname iname2 m :
  m !! prefix_user iname = None ->
  prefix_user iname2 = prefix_user iname ->
  onInterest base iname m =
    (<[prefix_user iname := 0]> m,
     [Put iname (list_byte_of_string "ACCEPTED");
      Express (mkName (prefix_user base) (prefix_proj base) (SequenceNumber 0))]) /\
  onInterest base iname2 (onInterest base iname m).1 = ((onInterest base iname m).1, []).
Proof.
  intros Hnew Huser.
  assert (Hfirst : onInterest base iname m =
    (<[prefix_user iname := 0]> m,
     [Put iname (list_byte_of_string "ACCEPTED");
      Express (mkName (prefix_user base) (prefix_proj base) (SequenceNumber 0))])).
  { unfold onInterest. rewrite Hnew.
    by rewrite (requestNext_expresses _ _ _ 0) by apply lookup_insert_eq. }
  split; [done|]. rewrite Hfirst. cbn [fst].
  unfold onInterest. by rewrite Huser, lookup_insert_eq.
Qed.

Lemma connection_accepted_once_witness :
  onInterest (mkPrefix "host" "tmp-proj") (mkPrefix "host" "tmp-proj") ∅ =
    (<["host"%string := 0]> ∅,
     [Put (mkPrefix "host" "tmp-proj") (list_byte_of_string "ACCEPTED");
      Express (mkName "host" "tmp-proj" (SequenceNumber 0))]) /\
  onInterest (mkPrefix "host" "tmp-proj") (mkPrefix "host" "other")
    (onInterest (mkPrefix "host" "tmp-proj") (mkPrefix "host" "tmp-proj") ∅).1
  = ((onInterest (mkPrefix "host" "tmp-proj") (mkPrefix "host" "tmp-proj") ∅).1, []).
Proof.
  apply (connection_accepted_once (mkPrefix "host" "tmp-proj") (mkPrefix "host" "tmp-proj")
           (mkPrefix "host" "other") ∅).
  - reflexivity.
  - reflexivity.
Defined.

Lemma shutdown_test content :
  (3 <= length content)%nat ->
  Byte.eqb (nth 0 (take 3 content) zero) zero && Byte.eqb (nth 1 (take 3 content) zero) zero
    && Byte.eqb (nth 2 (take 3 content) zero) zero = true
  <-> take 3 content = [zero; zero; zero].
Proof.
  intros Hlen.
  change (PlaybackModule.isShutdown (take 3 content) = true
          <-> take 3 content = PlaybackModule.sentinel).
  rewrite PlaybackFacts.isShutdown_take by (rewrite length_take; lia).
  by rewrite take_take.
Qed.

(** X19: stop and wait, whatever the sequence number.  A Data packet of a
    known remote whose content has at least three bytes and does not start
    with three zero bytes advances the counter of the remote by one and is
    followed by exactly one Interest, for the new counter value; the
    sequence number the Data carries plays no part (a mismatch is only
    logged). *)
Theorem data_advances_counter_by_one base name content m n seq :
  name_last name = SequenceNumber n ->
  m !! name_user name = Some seq ->
  (3 <= length content)%nat ->
  take 3 content <> [zero; zero; zero] ->
  int_min <= seq < int_max ->
  onData base name content m =
    Returned (<[name_user name := seq + 1]> m)
      [Express (mkName (prefix_user base) (prefix_proj base)
                  (SequenceNumber (uint64_of_int (seq + 1))))].
Proof.
  intros Hlast Hseq Hlen Hns Hrange. unfold onData.
  rewrite Hlast. cbn [toSequenceNumber]. rewrite Hseq.
  destruct (Nat.ltb_spec (length content) 3); [lia|].
  destruct (_ && _) eqn:Htest; [by apply shutdown_test in Htest|].
  rewrite int_add_id by lia.
  by rewrite (requestNext_expresses _ _ _ (seq + 1)) by apply lookup_insert_eq.
Qed.

Lemma data_advances_counter_by_one_witness :
  onData (mkPrefix "host" "tmp-proj") (mkName "host" "tmp-proj" (SequenceNumber 7))
    [x90; x40; x5a] {[ "host"%string := 2 ]} =
    Returned (<["host"%string := 2 + 1]> {[ "host"%string := 2 ]})
      [Express (mkName "host" "tmp-proj" (SequenceNumber (uint64_of_int (2 + 1))))].
Proof.
  apply (data_advances_counter_by_one (mkPrefix "host" "tmp-proj")
           (mkName "host" "tmp-proj" (SequenceNumber 7)) [x90; x40; x5a]
           {[ "host"%string := 2 ]} 7 2).
  - reflexivity.
  - reflexivity.
  - cbn. lia.
  - discriminate.
  - vm_compute. split; congruence.
Defined.

(** X20: shutdown, then a fresh start.  A Data packet of a known remote
    whose content starts with three zero bytes erases the remote and
    expresses no Interest; a content of fewer than three bytes is read
    past its end instead; and after the shutdown the next connection request
    of the remote is accepted again and restarts at sequence number 0. *)
Theorem shutdown_then_restart base name content iname m n seq :
  name_last name = SequenceNumber n ->
  m !! name_user name = Some seq ->
  (3 <= length content)%nat ->
  take 3 content = [zero; zero; zero] ->
  prefix_user iname = name_user name ->
  onData base name content m = Returned (delete (name_user name) m) [] /\
  (forall short, (length short < 3)%nat -> onData base name short m = Overread) /\
  onInterest base iname (delete (name_user name) m) =
    (<[name_user name := 0]> m,
     [Put iname (list_byte_of_string "ACCEPTED");
      Express (mkName (prefix_user base) (prefix_proj base) (SequenceNumber 0))]).
Proof.
  intros Hlast Hseq Hlen Hs Huser. split; [|split].
  - unfold onData. rewrite Hlast. cbn [toSequenceNumber]. rewrite Hseq.
    destruct (Nat.ltb_spec (length content) 3); [lia|].
    apply shutdown_test in Hs; [|done]. rewrite Hs. by rewrite delete_insert_eq.
  - intros short Hshort. unfold onData. rewrite Hlast. cbn [toSequenceNumber].
    rewrite Hseq. by destruct (Nat.ltb_spec (length short) 3); [|lia].
  - unfold onInterest. rewrite Huser, lookup_delete_eq.
    rewrite (requestNext_expresses _ _ _ 0) by apply lookup_insert_eq.
    by rewrite insert_delete_eq.
Qed.

Lemma shutdown_then_restart_witness :
  onData (mkPrefix "host" "tmp-proj") (mkName "host" "tmp-proj" (SequenceNumber 2))
    [zero; zero; zero] {[ "host"%string := 2 ]}
    = Returned (delete "host"%string {[ "host"%string := 2 ]}) [] /\
  (forall short, (length short < 3)%nat ->
     onData (mkPrefix "host" "tmp-proj") (mkName "host" "tmp-proj" (SequenceNumber 2))
       short {[ "host"%string := 2 ]} = Overread) /\
  onInterest (mkPrefix "host" "tmp-proj") (mkPrefix "host" "tmp-proj")
    (delete "host"%string {[ "host"%string := 2 ]}) =
    (<["host"%string := 0]> {[ "host"%string := 2 ]},
     [Put (mkPrefix "host" "tmp-proj") (list_byte_of_string "ACCEPTED");
      Express (mkName "host" "tmp-proj" (SequenceNumber 0))]).
Proof.
  apply (shutdown_then_restart (mkPrefix "host" "tmp-proj")
           (mkName "host" "tmp-proj" (SequenceNumber 2)) [zero; zero; zero]
           (mkPrefix "host" "tmp-proj") {[ "host"%string := 2 ]} 2 2).
  - reflexivity.
  - reflexivity.
  - cbn. lia.
  - reflexivity.
  - reflexivity.
Defined.

End NetworkPlaybackFacts.
